(** * Real-time stock dashboard: configuration, alerts, storage, requests,
      portfolio statistics, market clock and the per-card refresh loop.

    A shallow embedding of [js/config.js], [StockCard], [Utils] and
    [StockDashboard].  JavaScript numbers that hold timestamps, byte counts and
    millisecond delays are integers ([Z]); prices are exact rationals ([Q]),
    so rounding of doubles is not modelled, and the non-finite results of a
    division are kept apart in [jsnum].  Everything the browser decides
    (the clock and its time zone, which XHR callbacks run, whether
    [localStorage.setItem] throws, how a [fetch] completes) is an explicit
    argument. *)

From Stdlib Require Import ZArith QArith Qabs List String Bool Lia.
From Stdlib Require Import Ascii Sorted.
From stdpp Require Import base option gmap strings pretty.
Import ListNotations.

Open Scope Z_scope.

(** ** js/config.js *)

Module Config.

Record api := {
  TIMEOUT : Z;
  RETRY_ATTEMPTS : nat;
  RETRY_DELAY : Z;
  MAX_REQUESTS_PER_MINUTE : Z
}.

Record polling := {
  DEFAULT_INTERVAL : Z;
  MIN_INTERVAL : Z;
  MAX_INTERVAL : Z;
  POLL_RETRY_DELAY : Z;
  MAX_RETRIES : Z;
  EXPONENTIAL_BACKOFF : bool;
  BACKOFF_MULTIPLIER : Z;
  AUTO_PAUSE_ON_ERROR : bool;
  AUTO_RESUME_DELAY : Z
}.

Record cache := {
  ENABLED : bool;
  STOCK_DATA_DURATION : Z;
  MAX_ENTRIES : Z;
  MAX_SIZE : Z
}.

Record format := {
  CURRENCY_DECIMALS : Z;
  PERCENTAGE_DECIMALS : Z
}.

Record extended_hours := {
  PRE_MARKET_START : string;
  PRE_MARKET_END : string;
  AFTER_HOURS_START : string;
  AFTER_HOURS_END : string
}.

Record market := {
  HOURS_OPEN : string;
  HOURS_CLOSE : string;
  TRADING_DAYS : list Z;
  HOLIDAYS : list string;
  EXTENDED_HOURS : extended_hours
}.

Record debug := {
  DEBUG_ENABLED : bool;
  CONSOLE_LOGGING : bool
}.

(** The slice of [CONFIG] read by the code below. *)
Record config := {
  APP_ENVIRONMENT : string;
  API : api;
  POLLING : polling;
  CACHE : cache;
  FORMAT : format;
  MARKET : market;
  DEBUG : debug
}.

Definition CONFIG : config := {|
  APP_ENVIRONMENT := "production";
  API := {| TIMEOUT := 30000; RETRY_ATTEMPTS := 3; RETRY_DELAY := 2000;
            MAX_REQUESTS_PER_MINUTE := 60 |};
  POLLING := {| DEFAULT_INTERVAL := 30000; MIN_INTERVAL := 5000;
                MAX_INTERVAL := 3600000; POLL_RETRY_DELAY := 5000;
                MAX_RETRIES := 3; EXPONENTIAL_BACKOFF := true;
                BACKOFF_MULTIPLIER := 2; AUTO_PAUSE_ON_ERROR := true;
                AUTO_RESUME_DELAY := 30000 |};
  CACHE := {| ENABLED := true; STOCK_DATA_DURATION := 30000;
              MAX_ENTRIES := 100; MAX_SIZE := 5242880 |};
  FORMAT := {| CURRENCY_DECIMALS := 2; PERCENTAGE_DECIMALS := 2 |};
  MARKET := {| HOURS_OPEN := "09:30"; HOURS_CLOSE := "16:00";
               TRADING_DAYS := [1; 2; 3; 4; 5];
               HOLIDAYS := ["2025-01-01"; "2025-01-20"; "2025-02-17";
                            "2025-04-18"; "2025-05-26"; "2025-07-04";
                            "2025-09-01"; "2025-11-27"; "2025-12-25"];
               EXTENDED_HOURS := {| PRE_MARKET_START := "04:00";
                                    PRE_MARKET_END := "09:30";
                                    AFTER_HOURS_START := "16:00";
                                    AFTER_HOURS_END := "20:00" |} |};
  DEBUG := {| DEBUG_ENABLED := false; CONSOLE_LOGGING := true |}
|}.

(** An entry of [ENVIRONMENT_OVERRIDES]: a partial configuration; a key
    that the override object does not have is [None]. *)
Record overrides := {
  o_DEBUG_ENABLED : option bool;
  o_CONSOLE_LOGGING : option bool;
  o_DEFAULT_INTERVAL : option Z;
  o_CACHE_ENABLED : option bool
}.

Definition ENVIRONMENT_OVERRIDES (environment : string) : option overrides :=
  if String.eqb environment "development" then
    Some {| o_DEBUG_ENABLED := Some true; o_CONSOLE_LOGGING := Some true;
            o_DEFAULT_INTERVAL := Some 10000; o_CACHE_ENABLED := Some false |}
  else if String.eqb environment "staging" then
    Some {| o_DEBUG_ENABLED := Some true; o_CONSOLE_LOGGING := Some true;
            o_DEFAULT_INTERVAL := None; o_CACHE_ENABLED := None |}
  else if String.eqb environment "production" then
    Some {| o_DEBUG_ENABLED := Some false; o_CONSOLE_LOGGING := Some false;
            o_DEFAULT_INTERVAL := None; o_CACHE_ENABLED := None |}
  else None.

(** [target[key] = source[key]] for a key the source has. *)
Definition assign {A} (target : A) (source : option A) : A :=
  match source with Some v => v | None => target end.

(** [mergeDeep(target, source)]: nested objects are merged key by key,
    scalars are overwritten. *)
Definition mergeDeep (target : config) (source : overrides) : config :=
  {| APP_ENVIRONMENT := APP_ENVIRONMENT target;
     API := API target;
     POLLING :=
       let p := POLLING target in
       {| DEFAULT_INTERVAL := assign (DEFAULT_INTERVAL p) (o_DEFAULT_INTERVAL source);
          MIN_INTERVAL := MIN_INTERVAL p;
          MAX_INTERVAL := MAX_INTERVAL p;
          POLL_RETRY_DELAY := POLL_RETRY_DELAY p;
          MAX_RETRIES := MAX_RETRIES p;
          EXPONENTIAL_BACKOFF := EXPONENTIAL_BACKOFF p;
          BACKOFF_MULTIPLIER := BACKOFF_MULTIPLIER p;
          AUTO_PAUSE_ON_ERROR := AUTO_PAUSE_ON_ERROR p;
          AUTO_RESUME_DELAY := AUTO_RESUME_DELAY p |};
     CACHE :=
       let c := CACHE target in
       {| ENABLED := assign (ENABLED c) (o_CACHE_ENABLED source);
          STOCK_DATA_DURATION := STOCK_DATA_DURATION c;
          MAX_ENTRIES := MAX_ENTRIES c;
          MAX_SIZE := MAX_SIZE c |};
     FORMAT := FORMAT target;
     MARKET := MARKET target;
     DEBUG :=
       {| DEBUG_ENABLED := assign (DEBUG_ENABLED (DEBUG target)) (o_DEBUG_ENABLED source);
          CONSOLE_LOGGING := assign (CONSOLE_LOGGING (DEBUG target)) (o_CONSOLE_LOGGING source) |}
  |}.

Definition applyEnvironmentConfig (c : config) : config :=
  match ENVIRONMENT_OVERRIDES (APP_ENVIRONMENT c) with
  | Some o => mergeDeep c o
  | None => c
  end.

(** The [errors] array of [validateConfig], in the order of the pushes. *)
Definition validation_errors (c : config) : list string :=
  let p := POLLING c in
  (if MIN_INTERVAL p >=? MAX_INTERVAL p
   then ["POLLING.MIN_INTERVAL must be less than POLLING.MAX_INTERVAL"%string] else [])
  ++ (if (DEFAULT_INTERVAL p <? MIN_INTERVAL p) || (DEFAULT_INTERVAL p >? MAX_INTERVAL p)
      then ["POLLING.DEFAULT_INTERVAL must be between MIN_INTERVAL and MAX_INTERVAL"%string] else [])
  ++ (if MAX_SIZE (CACHE c) <=? 0
      then ["CACHE.MAX_SIZE must be greater than 0"%string] else [])
  ++ (if (CURRENCY_DECIMALS (FORMAT c) <? 0) || (CURRENCY_DECIMALS (FORMAT c) >? 10)
      then ["FORMAT.CURRENCY_DECIMALS must be between 0 and 10"%string] else []).

(** A call either returns or throws an [Error] carrying its arguments. *)
Inductive completion (A : Type) :=
| Returns (a : A)
| Throws (errors : list string).
Arguments Returns {A} a.
Arguments Throws {A} errors.

Definition validateConfig (c : config) : completion unit :=
  match validation_errors c with
  | [] => Returns tt
  | e :: es => Throws (e :: es)
  end.

(** [initializeConfig]: the value returned and the configuration left
    behind (the merge is not undone when validation throws). *)
Definition initializeConfig (c : config) : bool * config :=
  let c' := applyEnvironmentConfig c in
  match validateConfig c' with
  | Returns _ => (true, c')
  | Throws _ => (false, c')
  end.

(** The constraints as the specification words them. *)
Definition well_configured (c : config) : Prop :=
  MIN_INTERVAL (POLLING c) < MAX_INTERVAL (POLLING c)
  /\ MIN_INTERVAL (POLLING c) <= DEFAULT_INTERVAL (POLLING c) <= MAX_INTERVAL (POLLING c)
  /\ 0 < MAX_SIZE (CACHE c)
  /\ 0 <= CURRENCY_DECIMALS (FORMAT c) <= 10.

End Config.


(** ** JavaScript values used by the components *)

Module Js.

(** Result of an arithmetic expression that may divide. *)
Inductive jsnum :=
| Num (q : Q)
| Infinity (positive : bool)
| NaN.

(** [a / b] on finite operands. *)
Definition div (a b : Q) : jsnum :=
  if Qeq_bool b 0 then
    (if Qeq_bool a 0 then NaN else Infinity (Qle_bool 0 a))
  else Num (a / b).

(** [x * k] for a finite positive constant [k]. *)
Definition scale (x : jsnum) (k : Q) : jsnum :=
  match x with
  | Num q => Num (q * k)
  | Infinity s => Infinity s
  | NaN => NaN
  end.

(** Truthiness of a numeric property: [undefined], [null] and [0] are falsy. *)
Definition truthy (x : option Q) : bool :=
  match x with
  | Some q => negb (Qeq_bool q 0)
  | None => false
  end.

(** Truthiness of an integer property. *)
Definition truthyZ (x : option Z) : bool :=
  match x with
  | Some z => negb (z =? 0)
  | None => false
  end.

(** [parseFloat(a || b || d)] where [d] is a number: the first truthy
    operand, else [d]; [parseFloat] leaves a finite number as it is. *)
Definition first_truthy (a b : option Q) (d : Q) : Q :=
  match a with
  | Some x => if negb (Qeq_bool x 0) then x else
      match b with
      | Some y => if negb (Qeq_bool y 0) then y else d
      | None => d
      end
  | None =>
      match b with
      | Some y => if negb (Qeq_bool y 0) then y else d
      | None => d
      end
  end.

(** Comparisons of finite numbers. *)
Definition geb (a b : Q) : bool := Qle_bool b a.
Definition leb (a b : Q) : bool := Qle_bool a b.
Definition gtb (a b : Q) : bool := negb (Qle_bool a b).
Definition ltb (a b : Q) : bool := negb (Qle_bool b a).

(** The fields of [result.data] that the code reads as numbers. *)
Record quote := {
  regularMarketPrice : option Q;
  price : option Q;
  regularMarketPreviousClose : option Q;
  previousClose : option Q;
  regularMarketTime : option Z
}.

(** The as-of time of a quote. *)
Definition asOf (q : quote) : Z := default 0 (regularMarketTime q).

(** A quote with a price and an as-of time. *)
Definition quote_at (p : Q) (t : Z) : quote :=
  {| regularMarketPrice := Some p; price := None;
     regularMarketPreviousClose := None; previousClose := None;
     regularMarketTime := Some t |}.

(** A quote with a price and a previous close. *)
Definition quote_since (p close : Q) : quote :=
  {| regularMarketPrice := Some p; price := None;
     regularMarketPreviousClose := Some close; previousClose := None;
     regularMarketTime := None |}.

End Js.


(** ** StockCard: price alerts *)

Module Alerts.

(** An entry of the [stockAlerts] object, as [setAlert] writes it. *)
Record alert := {
  price : Q;
  created : Z;
  triggered : bool
}.

(** [setAlert(price)] at clock reading [now]: the parsed [stockAlerts]
    object gets (or replaces) the entry of this card's symbol. *)
Definition setAlert (now : Z) (symbol : string) (p : Q)
    (alerts : gmap string alert) : gmap string alert :=
  <[symbol := {| price := p; created := now; triggered := false |}]> alerts.

(** The condition of the inner [if] of [checkAlerts]. *)
Definition reached (a : alert) (currentPrice : Q) : bool :=
  (Js.geb (price a) (inject_Z (created a)) && Js.geb currentPrice (price a))
  || (Js.ltb (price a) (inject_Z (created a)) && Js.leb currentPrice (price a)).

(** [checkAlerts()]: the stored alerts afterwards and, when the alert
    fired, the arguments of [triggerAlert]. *)
Definition checkAlerts (symbol : string) (data : option Js.quote)
    (alerts : gmap string alert) : gmap string alert * option (Q * Q) :=
  match alerts !! symbol, data with
  | Some a, Some d =>
      if negb (triggered a) then
        let currentPrice := Js.first_truthy (Js.regularMarketPrice d) (Js.price d) 0 in
        if reached a currentPrice then
          (<[symbol := {| price := price a; created := created a; triggered := true |}]> alerts,
           Some (price a, currentPrice))
        else (alerts, None)
      else (alerts, None)
  | _, _ => (alerts, None)
  end.

(** A quote that carries only a market price. *)
Definition priced (p : Q) : Js.quote :=
  {| Js.regularMarketPrice := Some p; Js.price := None;
     Js.regularMarketPreviousClose := None; Js.previousClose := None;
     Js.regularMarketTime := None |}.

(** Evaluate the alert of [symbol] once per price, in order; one flag per
    evaluation tells whether it fired. *)
Fixpoint feed (symbol : string) (prices : list Q) (alerts : gmap string alert)
    : gmap string alert * list bool :=
  match prices with
  | [] => (alerts, [])
  | p :: rest =>
      let '(alerts1, fired) := checkAlerts symbol (Some (priced p)) alerts in
      let '(alerts2, flags) := feed symbol rest alerts1 in
      (alerts2, match fired with Some _ => true | None => false end :: flags)
  end.

(** The rule of the specification for a [change] alert: the percentage
    move away from the price at creation reaches the threshold.  This is
    the specification's wording, not code. *)
Definition spec_change_fires (currentPrice createdPrice thresholdPrice : Q) : bool :=
  Js.geb (Qabs ((currentPrice - createdPrice) / createdPrice) * 100) thresholdPrice.

(** The rule of the specification for an [above] alert. *)
Definition spec_above_fires (currentPrice thresholdPrice : Q) : bool :=
  Js.geb currentPrice thresholdPrice.

End Alerts.

(** ** Utils: localStorage with expiry *)

Module Storage.

Section WithValue.

(** The type of the values handed to [setLocalStorage]; they are taken to
    survive [JSON.stringify] followed by [JSON.parse] unchanged. *)
Context {V : Type}.

(** The object that [setLocalStorage] serialises. *)
Record item := {
  value : V;
  timestamp : Z;
  expiry : option Z
}.

(** What is held under a key: the text of an item, or text that
    [getLocalStorage] cannot use (empty, or rejected by [JSON.parse]). *)
Inductive stored :=
| Entry (i : item)
| Unusable.

(** The host's [localStorage.setItem] may throw (quota, privacy mode). *)
Variable setItem_throws : gmap string stored -> string -> item -> bool.

(** [expiry ? Date.now() + expiry : null]. *)
Definition expiresAt (now : Z) (ttl : option Z) : option Z :=
  match ttl with
  | Some t => if Js.truthyZ (Some t) then Some (now + t) else None
  | None => None
  end.

(** [setLocalStorage(key, value, expiry)] at clock reading [now]; a
    missing, [null] or [0] third argument means no expiry.  Returns the
    success flag and the store afterwards. *)
Definition setLocalStorage (now : Z) (key : string) (v : V) (ttl : option Z)
    (store : gmap string stored) : bool * gmap string stored :=
  let i := {| value := v; timestamp := now; expiry := expiresAt now ttl |} in
  if setItem_throws store key i then (false, store)
  else (true, <[key := Entry i]> store).

(** [getLocalStorage(key, defaultValue)] at clock reading [now]: the value
    returned and the store afterwards. *)
Definition getLocalStorage (now : Z) (key : string) (defaultValue : V)
    (store : gmap string stored) : V * gmap string stored :=
  match store !! key with
  | None => (defaultValue, store)
  | Some Unusable => (defaultValue, store)
  | Some (Entry i) =>
      match expiry i with
      | Some e =>
          if Js.truthyZ (Some e) && (now >? e) then (defaultValue, delete key store)
          else (value i, store)
      | None => (value i, store)
      end
  end.

(** [removeLocalStorage(key)]. *)
Definition removeLocalStorage (key : string) (store : gmap string stored)
    : gmap string stored :=
  delete key store.

End WithValue.

Arguments item : clear implicits.
Arguments stored : clear implicits.

(** A host whose [setItem] never throws. *)
Definition roomy {V} : gmap string (stored V) -> string -> item V -> bool :=
  fun _ _ _ => false.

(** Stale-write rejection as the specification words it, for values that
    carry an as-of time: a write whose as-of is older than the stored
    one leaves the store as it was.  The specification's wording, not code. *)
Definition spec_rejects_stale {V} (asOf : V -> Z)
    (throws : gmap string (stored V) -> string -> item V -> bool) : Prop :=
  forall now key v ttl store old,
    store !! key = Some (Entry old) ->
    asOf v < asOf (value old) ->
    snd (setLocalStorage throws now key v ttl store) = store.

End Storage.

(** ** Utils.makeRequest: retries *)

Module Request.

(** The two members of [options] that steer the retries. *)
Record options := {
  retries : option nat;
  retryDelay : option Z
}.

(** The callbacks that [attemptRequest] installs on its [xhr]; the host
    calls them with the [readyState] and [status] the [xhr] then has. *)
Inductive callback :=
| onreadystatechange (readyState status : Z)
| onerror
| ontimeout.

Inductive settlement :=
| Resolved (status : Z)
| RejectedHttp (status : Z)
| RejectedNetwork
| RejectedTimeout.

(** The closure of one [makeRequest] call: the counter, the pending
    [setTimeout(attemptRequest, d)] calls in the order they were made, the
    delay that preceded each attempt already started (0 for the first,
    which is started synchronously), and the state of the promise. *)
Record state := {
  attempts : nat;
  timers : list Z;
  sent : list Z;
  settled : option settlement
}.

Definition maxAttempts (cfg : Config.config) (o : options) : nat :=
  match retries o with
  | Some (S n) => S n
  | _ => Config.RETRY_ATTEMPTS (Config.API cfg)
  end.

Definition delay (cfg : Config.config) (o : options) : Z :=
  match retryDelay o with
  | Some d => if d =? 0 then Config.RETRY_DELAY (Config.API cfg) else d
  | None => Config.RETRY_DELAY (Config.API cfg)
  end.

(** [resolve] and [reject] settle the promise once; later calls do nothing. *)
Definition settle (r : settlement) (st : state) : state :=
  match settled st with
  | Some _ => st
  | None => {| attempts := attempts st; timers := timers st; sent := sent st;
               settled := Some r |}
  end.

(** [attemptRequest()], entered after a wait of [waited] ms. *)
Definition attemptRequest (waited : Z) (st : state) : state :=
  {| attempts := S (attempts st); timers := timers st;
     sent := sent st ++ [waited]; settled := settled st |}.

(** The shared shape of the three failure branches. *)
Definition retry_or (cfg : Config.config) (o : options) (r : settlement)
    (st : state) : state :=
  if (attempts st <? maxAttempts cfg o)%nat then
    {| attempts := attempts st;
       timers := timers st ++ [delay cfg o * Z.of_nat (attempts st)];
       sent := sent st; settled := settled st |}
  else settle r st.

Definition handle (cfg : Config.config) (o : options) (cb : callback)
    (st : state) : state :=
  match cb with
  | onreadystatechange readyState status =>
      if readyState =? 4 then
        if (status >=? 200) && (status <? 300) then settle (Resolved status) st
        else retry_or cfg o (RejectedHttp status) st
      else st
  | onerror => retry_or cfg o RejectedNetwork st
  | ontimeout => retry_or cfg o RejectedTimeout st
  end.

(** What the host does next: an [xhr] calls one of its callbacks, or the
    oldest pending timer expires.  (Timers are armed with delays that
    never decrease, so the oldest one is due first.) *)
Inductive event :=
| Calls (cb : callback)
| TimerFires.

Definition step (cfg : Config.config) (o : options) (st : state) (e : event)
    : state :=
  match e with
  | Calls cb => handle cfg o cb st
  | TimerFires =>
      match timers st with
      | [] => st
      | d :: rest =>
          attemptRequest d {| attempts := attempts st; timers := rest;
                              sent := sent st; settled := settled st |}
      end
  end.

(** [makeRequest(url, options)] followed by the given host events. *)
Definition makeRequest (cfg : Config.config) (o : options) (events : list event)
    : state :=
  fold_left (step cfg o) events
    (attemptRequest 0 {| attempts := 0; timers := []; sent := []; settled := None |}).

Definition no_options : options := {| retries := None; retryDelay := None |}.

(** A callback that reports a failed attempt: a finished response outside
    200..299, an error, or a timeout. *)
Definition failure (cb : callback) : Prop :=
  match cb with
  | onreadystatechange readyState status =>
      readyState = 4 /\ (status < 200 \/ 300 <= status)
  | onerror | ontimeout => True
  end.

End Request.

(** ** StockDashboard.updateStats *)

Module Dashboard.

(** The three accumulators of the loop over [stockCards]. *)
Record totals := {
  totalValue : Q;
  totalChange : Q;
  validCards : nat
}.

Definition no_totals : totals :=
  {| totalValue := 0; totalChange := 0; validCards := 0 |}.

(** The guard of the loop body: [data && data.regularMarketPrice &&
    data.regularMarketPreviousClose]. *)
Definition counted (data : option Js.quote) : bool :=
  match data with
  | Some d => Js.truthy (Js.regularMarketPrice d)
              && Js.truthy (Js.regularMarketPreviousClose d)
  | None => false
  end.

(** The body of the [forEach] callback, for a card whose [getData()] is [data]. *)
Definition visit (t : totals) (data : option Js.quote) : totals :=
  match data with
  | Some d =>
      match Js.regularMarketPrice d, Js.regularMarketPreviousClose d with
      | Some price, Some previousClose =>
          if negb (Qeq_bool price 0) && negb (Qeq_bool previousClose 0) then
            {| totalValue := totalValue t + price;
               totalChange := totalChange t + (price - previousClose);
               validCards := S (validCards t) |}
          else t
      | _, _ => t
      end
  | None => t
  end.

(** What [updateStats] writes: the [total-stocks] count and, only when some
    card counted, the amount and percentage of [portfolio-change]. *)
Record stats := {
  totalStocks : nat;
  portfolioChange : option (Q * Js.jsnum)
}.

(** [updateStats()] over the cards in the order of the [stockCards] map,
    each with its symbol and its [getData()]. *)
Definition totals_of (stockCards : list (string * option Js.quote)) : totals :=
  fold_left visit (map snd stockCards) no_totals.

Definition updateStats (stockCards : list (string * option Js.quote)) : stats :=
  let t := totals_of stockCards in
  {| totalStocks := length stockCards;
     portfolioChange :=
       if (0 <? validCards t)%nat then
         Some (totalChange t,
               if Js.gtb (totalValue t) 0
               then Js.scale (Js.div (totalChange t) (totalValue t - totalChange t)) 100
               else Js.Num 0)
       else None |}.

(** The percentage as the specification words it: the quotient when the
    denominator is not zero, else 0.  The specification's wording, not code. *)
Definition spec_changePercent (value change : Q) : Js.jsnum :=
  if Qeq_bool (value - change) 0 then Js.Num 0
  else Js.Num (change / (value - change) * 100).

(** The price and the change of a card that counts. *)
Definition price_of (data : option Js.quote) : Q :=
  default 0%Q (data ≫= Js.regularMarketPrice).

Definition change_of (data : option Js.quote) : Q :=
  (price_of data - default 0%Q (data ≫= Js.regularMarketPreviousClose))%Q.

Definition sumQ (l : list Q) : Q := fold_right Qplus 0%Q l.

(** A quote given by its price and its change since the previous close. *)
Definition snapshot (price change : Q) : Js.quote :=
  {| Js.regularMarketPrice := Some price; Js.price := Some price;
     Js.regularMarketPreviousClose := Some (price - change)%Q;
     Js.previousClose := Some (price - change)%Q;
     Js.regularMarketTime := None |}.

End Dashboard.


(** ** Utils.getMarketStatus *)

Module Market.

Record marketStatus := {
  isOpen : bool;
  isTradingDay : bool;
  isHoliday : bool;
  isExtendedHours : bool;
  isPreMarket : bool;
  isAfterHours : bool;
  status : string;
  statusText : string
}.

(** [Array.prototype.includes] on numbers and on strings. *)
Definition includesZ (l : list Z) (x : Z) : bool := existsb (Z.eqb x) l.
Definition includes (l : list string) (x : string) : bool := existsb (String.eqb x) l.

(** [getMarketStatus(date)], from the three readings it takes of the
    market-zone [Date]: [getDay()], [toTimeString().slice(0, 5)] and
    [toISOString().slice(0, 10)].  Times are compared as strings. *)
Definition getMarketStatus (m : Config.market) (day : Z)
    (timeString dateString : string) : marketStatus :=
  let isTradingDay := includesZ (Config.TRADING_DAYS m) day in
  let isHoliday := includes (Config.HOLIDAYS m) dateString in
  let isMarketHours :=
    String.leb (Config.HOURS_OPEN m) timeString
    && String.ltb timeString (Config.HOURS_CLOSE m) in
  let isPreMarket :=
    String.leb (Config.PRE_MARKET_START (Config.EXTENDED_HOURS m)) timeString
    && String.ltb timeString (Config.PRE_MARKET_END (Config.EXTENDED_HOURS m)) in
  let isAfterHours :=
    String.leb (Config.AFTER_HOURS_START (Config.EXTENDED_HOURS m)) timeString
    && String.ltb timeString (Config.AFTER_HOURS_END (Config.EXTENDED_HOURS m)) in
  let isOpen := isTradingDay && negb isHoliday && isMarketHours in
  let isExtendedHours := isTradingDay && negb isHoliday && (isPreMarket || isAfterHours) in
  {| isOpen := isOpen;
     isTradingDay := isTradingDay;
     isHoliday := isHoliday;
     isExtendedHours := isExtendedHours;
     isPreMarket := isPreMarket;
     isAfterHours := isAfterHours;
     status := if isOpen then "open" else if isExtendedHours then "extended" else "closed";
     statusText :=
       if isOpen then "Market Open"
       else if isExtendedHours then "Extended Hours"
       else if isHoliday then "Market Holiday"
       else if negb isTradingDay then "Market Closed - Weekend"
       else "Market Closed" |}.

(** The sessions of the specification and its order of precedence:
    holiday, then weekend, then the windows of the day.  The
    specification's wording, not code. *)
Inductive session := OPEN | PRE_MARKET | AFTER_HOURS | CLOSED | HOLIDAY | WEEKEND.

Definition within (from to_ time : string) : bool :=
  String.leb from time && String.ltb time to_.

Definition spec_sessionAt (m : Config.market) (day : Z)
    (timeString dateString : string) : session :=
  if includes (Config.HOLIDAYS m) dateString then HOLIDAY
  else if negb (includesZ (Config.TRADING_DAYS m) day) then WEEKEND
  else if within (Config.HOURS_OPEN m) (Config.HOURS_CLOSE m) timeString then OPEN
  else if within (Config.PRE_MARKET_START (Config.EXTENDED_HOURS m))
                 (Config.PRE_MARKET_END (Config.EXTENDED_HOURS m)) timeString then PRE_MARKET
  else if within (Config.AFTER_HOURS_START (Config.EXTENDED_HOURS m))
                 (Config.AFTER_HOURS_END (Config.EXTENDED_HOURS m)) timeString then AFTER_HOURS
  else CLOSED.

(** The text and the coarse status the code shows for each session. *)
Definition text_of (s : session) : string :=
  match s with
  | OPEN => "Market Open"
  | PRE_MARKET | AFTER_HOURS => "Extended Hours"
  | CLOSED => "Market Closed"
  | HOLIDAY => "Market Holiday"
  | WEEKEND => "Market Closed - Weekend"
  end.

Definition status_of (s : session) : string :=
  match s with
  | OPEN => "open"
  | PRE_MARKET | AFTER_HOURS => "extended"
  | CLOSED | HOLIDAY | WEEKEND => "closed"
  end.

End Market.


(** ** The [Date] that getMarketStatus reads *)

Module Clock.

(** The wall clock of the market zone at the instant asked about: what
    [now.toLocaleString("en-US", {timeZone: ...})] prints. *)
Record wallclock := {
  year : Z;
  month : Z;
  day : Z;
  hours : Z;
  minutes : Z
}.

(** Days between 1 January 1970 and a date of the Gregorian calendar, and
    back. *)
Definition days_from_civil (y m d : Z) : Z :=
  let y' := if m <=? 2 then y - 1 else y in
  let era := y' / 400 in
  let yoe := y' - era * 400 in
  let doy := (153 * (if m >? 2 then m - 3 else m + 9) + 2) / 5 + d - 1 in
  let doe := yoe * 365 + yoe / 4 - yoe / 100 + doy in
  era * 146097 + doe - 719468.

Definition civil_from_days (z : Z) : Z * Z * Z :=
  let z' := z + 719468 in
  let era := z' / 146097 in
  let doe := z' - era * 146097 in
  let yoe := (doe - doe / 1460 + doe / 36524 - doe / 146096) / 365 in
  let doy := doe - (365 * yoe + yoe / 4 - yoe / 100) in
  let mp := (5 * doy + 2) / 153 in
  let d := doy - (153 * mp + 2) / 5 + 1 in
  let m := if mp <? 10 then mp + 3 else mp - 9 in
  (if m <=? 2 then yoe + era * 400 + 1 else yoe + era * 400, m, d).

Definition pad2 (n : Z) : string :=
  if n <? 10 then ("0" ++ pretty n)%string else pretty n.

(** [YYYY-MM-DD], for years of four digits. *)
Definition iso_date (y m d : Z) : string :=
  (pretty y ++ "-" ++ pad2 m ++ "-" ++ pad2 d)%string.

(** The calendar date of the wall clock. *)
Definition date_of (w : wallclock) : string :=
  iso_date (year w) (month w) (day w).

(** [marketTime = new Date(text)] reads the printed wall clock on the
    browser's own clock, so the local fields of [marketTime] are those of
    the wall clock: [getDay()] is its day of the week (1 January 1970 was
    a Thursday) and [toTimeString().slice(0, 5)] its hours and minutes. *)
Definition getDay (w : wallclock) : Z :=
  (days_from_civil (year w) (month w) (day w) + 4) mod 7.

Definition toTimeString_slice (w : wallclock) : string :=
  (pad2 (hours w) ++ ":" ++ pad2 (minutes w))%string.

(** [toISOString().slice(0, 10)] prints the UTC fields of [marketTime]:
    its local fields moved by the browser's [getTimezoneOffset()], the
    minutes that UTC is ahead of the browser's clock (300 in New York in
    winter, 0 in a browser on UTC). *)
Definition toISOString_slice (timezoneOffset : Z) (w : wallclock) : string :=
  let local := days_from_civil (year w) (month w) (day w) * 1440
               + hours w * 60 + minutes w in
  let '(y, m, d) := civil_from_days ((local + timezoneOffset) / 1440) in
  iso_date y m d.

(** [getMarketStatus(date)] in a browser whose clock is [timezoneOffset]
    minutes behind UTC, at an instant where the market's wall clock
    shows [w]. *)
Definition getMarketStatusAt (m : Config.market) (timezoneOffset : Z)
    (w : wallclock) : Market.marketStatus :=
  Market.getMarketStatus m (getDay w) (toTimeString_slice w)
    (toISOString_slice timezoneOffset w).

(** The session of the specification at that instant: the date is the
    date of the market's wall clock.  The specification's wording, not code. *)
Definition spec_sessionAt (m : Config.market) (w : wallclock) : Market.session :=
  Market.spec_sessionAt m (getDay w) (toTimeString_slice w) (date_of w).

End Clock.

(** ** Utils: validation of symbols, quotes and alerts *)

Module Validation.

(** [STOCK_CONFIG.STOCKS], as far as the validators read it. *)
Record stocks := {
  SYMBOL_MIN_LENGTH : Z;
  SYMBOL_MAX_LENGTH : Z;
  MIN_PRICE_THRESHOLD : Q;
  MAX_PRICE_THRESHOLD : Q;
  PRICE_MIN : Q;
  PRICE_MAX : Q;
  VOLUME_MIN : Q;
  CHANGE_PERCENT_MAX : Q
}.

Definition STOCKS : stocks := {|
  SYMBOL_MIN_LENGTH := 1;
  SYMBOL_MAX_LENGTH := 5;
  MIN_PRICE_THRESHOLD := 1 # 100;
  MAX_PRICE_THRESHOLD := 999999;
  PRICE_MIN := 0;
  PRICE_MAX := 999999;
  VOLUME_MIN := 0;
  CHANGE_PERCENT_MAX := 100
|}.

(** The texts below are strings of ASCII characters: for those
    [trim] strips tab, line feed, vertical tab, form feed, carriage return
    and space, and [toUpperCase] maps a..z to A..Z. *)
Definition is_space (c : ascii) : bool :=
  let n := nat_of_ascii c in
  ((9 <=? n) && (n <=? 13))%nat || (n =? 32)%nat.

Fixpoint trimStart (s : string) : string :=
  match s with
  | String c rest => if is_space c then trimStart rest else s
  | EmptyString => EmptyString
  end.

Fixpoint trimEnd (s : string) : string :=
  match s with
  | String c rest =>
      match trimEnd rest with
      | EmptyString => if is_space c then EmptyString else String c EmptyString
      | kept => String c kept
      end
  | EmptyString => EmptyString
  end.

Definition trim (s : string) : string := trimEnd (trimStart s).

Definition is_capital (c : ascii) : bool :=
  let n := nat_of_ascii c in ((65 <=? n) && (n <=? 90))%nat.

Definition upper (c : ascii) : ascii :=
  let n := nat_of_ascii c in
  if ((97 <=? n) && (n <=? 122))%nat then ascii_of_nat (n - 32) else c.

Fixpoint toUpperCase (s : string) : string :=
  match s with
  | String c rest => String (upper c) (toUpperCase rest)
  | EmptyString => EmptyString
  end.

Fixpoint capitals (s : string) : bool :=
  match s with
  | String c rest => is_capital c && capitals rest
  | EmptyString => true
  end.

(** [SYMBOL_PATTERN.test(s)] for the pattern [/^[A-Z]{1,5}$/]. *)
Definition SYMBOL_PATTERN (s : string) : bool :=
  capitals s && (1 <=? String.length s)%nat && (String.length s <=? 5)%nat.

(** The [error] of a failed validation; each stands for the message the
    code builds from it. *)
Inductive error :=
| SymbolRequired
| SymbolTooShort (min : Z)
| SymbolTooLong (max : Z)
| SymbolNotCapitals
| NotAnObject
| MissingFields (fields : list string)
| PriceOutOfRange (min max : Q)
| VolumeTooLow (min : Q)
| NotANumber (field : string)
| ChangePercentInvalid (changePercent : Js.jsnum)
| AlertPriceOutOfRange (min max : Q)
| AlertTypeInvalid.

(** [{ valid: true, ... }] with its payload, or [{ valid: false, error }]. *)
Inductive result (A : Type) :=
| valid (a : A)
| invalid (e : error).
Arguments valid {A} a.
Arguments invalid {A} e.

(** [validateStockSymbol(symbol)]; [None] is an argument that is not a
    string. *)
Definition validateStockSymbol (config : stocks) (symbol : option string)
    : result string :=
  match symbol with
  | None => invalid SymbolRequired
  | Some s =>
      if String.eqb s "" then invalid SymbolRequired
      else
        let trimmed := toUpperCase (trim s) in
        if Z.of_nat (String.length trimmed) <? SYMBOL_MIN_LENGTH config
        then invalid (SymbolTooShort (SYMBOL_MIN_LENGTH config))
        else if Z.of_nat (String.length trimmed) >? SYMBOL_MAX_LENGTH config
        then invalid (SymbolTooLong (SYMBOL_MAX_LENGTH config))
        else if negb (SYMBOL_PATTERN trimmed) then invalid SymbolNotCapitals
        else valid trimmed
  end.

(** The fields of a quote that [validateStockData] reads.  [None] is a
    field that is not an own property, or is [null] or [undefined].  Every
    test of the four numeric fields goes through ToNumber (in [isNaN], in
    the comparisons with a number and in [Math.abs]), so a present value is
    given by the number it converts to: [Js.NaN] for NaN itself and for a
    text or an object that is no number, [Js.Infinity] for an infinity.  A
    value that ToNumber refuses (a BigInt, a Symbol) is not modelled. *)
Record stockData := {
  sd_symbol : option string;
  sd_price : option Js.jsnum;
  sd_change : option Js.jsnum;
  sd_changePercent : option Js.jsnum;
  sd_volume : option Js.jsnum
}.

Definition missing {A} (name : string) (field : option A) : list string :=
  match field with Some _ => [] | None => [name] end.

(** [isNaN(x)], [x < b], [x > b] and [Math.abs(x)] for a finite [b]. *)
Definition isNaN (x : Js.jsnum) : bool :=
  match x with Js.NaN => true | _ => false end.

Definition below (x : Js.jsnum) (b : Q) : bool :=
  match x with
  | Js.Num q => Js.ltb q b
  | Js.Infinity positive => negb positive
  | Js.NaN => false
  end.

Definition above (x : Js.jsnum) (b : Q) : bool :=
  match x with
  | Js.Num q => Js.gtb q b
  | Js.Infinity positive => positive
  | Js.NaN => false
  end.

Definition abs (x : Js.jsnum) : Js.jsnum :=
  match x with
  | Js.Num q => Js.Num (Qabs q)
  | Js.Infinity _ => Js.Infinity true
  | Js.NaN => Js.NaN
  end.

(** The loop over [numericFields]: the fields that are not numbers, in
    the order of the loop; it returns at the first one. *)
Definition not_a_number (name : string) (x : Js.jsnum) : list string :=
  if isNaN x then [name] else [].

(** [validateStockData(stockData)]; [None] is an argument that is not an
    object. *)
Definition validateStockData (config : stocks) (data : option stockData)
    : result stockData :=
  match data with
  | None => invalid NotAnObject
  | Some d =>
      match missing "symbol" (sd_symbol d) ++ missing "price" (sd_price d)
            ++ missing "change" (sd_change d)
            ++ missing "changePercent" (sd_changePercent d)
            ++ missing "volume" (sd_volume d) with
      | f :: fs => invalid (MissingFields (f :: fs))
      | [] =>
          let price := default Js.NaN (sd_price d) in
          let change := default Js.NaN (sd_change d) in
          let changePercent := default Js.NaN (sd_changePercent d) in
          let volume := default Js.NaN (sd_volume d) in
          match not_a_number "price" price ++ not_a_number "change" change
                ++ not_a_number "changePercent" changePercent
                ++ not_a_number "volume" volume with
          | field :: _ => invalid (NotANumber field)
          | [] =>
              if below price (PRICE_MIN config) || above price (PRICE_MAX config)
              then invalid (PriceOutOfRange (PRICE_MIN config) (PRICE_MAX config))
              else if below volume (VOLUME_MIN config)
              then invalid (VolumeTooLow (VOLUME_MIN config))
              else if above (abs changePercent) (CHANGE_PERCENT_MAX config)
              then invalid (ChangePercentInvalid changePercent)
              else valid d
          end
      end
  end.

(** The fields of an alert that [validatePriceAlert] reads. *)
Record alertData := {
  ad_symbol : option string;
  ad_price : option Q;
  ad_type : option string
}.

(** [validatePriceAlert(alertData)]. *)
Definition validatePriceAlert (config : stocks) (data : option alertData)
    : result alertData :=
  match data with
  | None => invalid NotAnObject
  | Some d =>
      match missing "symbol" (ad_symbol d) ++ missing "price" (ad_price d)
            ++ missing "type" (ad_type d) with
      | f :: fs => invalid (MissingFields (f :: fs))
      | [] =>
          match validateStockSymbol config (ad_symbol d) with
          | invalid e => invalid e
          | valid _ =>
              let price := default 0%Q (ad_price d) in
              if Js.ltb price (MIN_PRICE_THRESHOLD config)
                 || Js.gtb price (MAX_PRICE_THRESHOLD config)
              then invalid (AlertPriceOutOfRange (MIN_PRICE_THRESHOLD config)
                              (MAX_PRICE_THRESHOLD config))
              else if negb (Market.includes ["above"; "below"; "change"]%string
                              (default ""%string (ad_type d)))
              then invalid AlertTypeInvalid
              else valid d
          end
      end
  end.

End Validation.


(** ** StockCard: loading and auto-refresh *)

Module Card.

(** How the [fetch] of one [loadData] call ends. *)
Inductive fetch_result :=
| FetchRejects (message : string)
| NotOk (status : Z) (statusText : string)
| JsonRejects (message : string)
| Json (success : bool) (data : option Js.quote) (error : option string).

Record options := {
  autoRefresh : bool;
  refreshInterval : Z
}.

(** The fields of a card that loading touches, the two texts of its
    status line, whether its interval timer is armed, and a count of the
    [fetch] calls that have not completed yet. *)
Record card := {
  symbol : string;
  data : option Js.quote;
  previousData : option Js.quote;
  isLoading : bool;
  hasError : bool;
  errorMessage : string;
  statusType : string;
  statusText : string;
  refreshTimer : bool;
  outstanding : nat
}.

Definition setStatus (type message : string) (c : card) : card :=
  {| symbol := symbol c; data := data c; previousData := previousData c;
     isLoading := isLoading c; hasError := hasError c;
     errorMessage := errorMessage c;
     statusType := type; statusText := message;
     refreshTimer := refreshTimer c; outstanding := outstanding c |}.

Definition setLoading (loading : bool) (c : card) : card :=
  let c1 :=
    {| symbol := symbol c; data := data c; previousData := previousData c;
       isLoading := loading; hasError := hasError c;
       errorMessage := errorMessage c;
       statusType := statusType c; statusText := statusText c;
       refreshTimer := refreshTimer c; outstanding := outstanding c |} in
  if loading then setStatus "loading" "Loading..." c1 else c1.

(** [message || fallback] on strings. *)
Definition or_text (message fallback : string) : string :=
  if String.eqb message "" then fallback else message.

Definition setError (hasError_ : bool) (message : string) (c : card) : card :=
  let c1 :=
    {| symbol := symbol c; data := data c; previousData := previousData c;
       isLoading := isLoading c; hasError := hasError_;
       errorMessage := if hasError_ then or_text message "Failed to load data"
                       else errorMessage c;
       statusType := statusType c; statusText := statusText c;
       refreshTimer := refreshTimer c; outstanding := outstanding c |} in
  if hasError_ then setStatus "error" (or_text message "Error") c1 else c1.

Definition with_outstanding (n : nat) (c : card) : card :=
  {| symbol := symbol c; data := data c; previousData := previousData c;
     isLoading := isLoading c; hasError := hasError c;
     errorMessage := errorMessage c;
     statusType := statusType c; statusText := statusText c;
     refreshTimer := refreshTimer c; outstanding := n |}.

Definition with_data (d : option Js.quote) (c : card) : card :=
  {| symbol := symbol c; data := d; previousData := data c;
     isLoading := isLoading c; hasError := hasError c;
     errorMessage := errorMessage c;
     statusType := statusType c; statusText := statusText c;
     refreshTimer := refreshTimer c; outstanding := outstanding c |}.

Definition with_timer (armed : bool) (c : card) : card :=
  {| symbol := symbol c; data := data c; previousData := previousData c;
     isLoading := isLoading c; hasError := hasError c;
     errorMessage := errorMessage c;
     statusType := statusType c; statusText := statusText c;
     refreshTimer := armed; outstanding := outstanding c |}.

(** [loadData()] up to its first [await]: the card afterwards and the
    number of [fetch] calls issued. *)
Definition loadData (c : card) : card * nat :=
  if isLoading c then (c, 0%nat)
  else (with_outstanding (S (outstanding c)) (setError false "" (setLoading true c)), 1%nat).

(** The message of the error thrown inside the [try] block. *)
Definition thrown (r : fetch_result) : option string :=
  match r with
  | FetchRejects m => Some m
  | NotOk status statusText =>
      Some ("HTTP " ++ pretty status ++ ": " ++ statusText)%string
  | JsonRejects m => Some m
  | Json true _ _ => None
  | Json false _ error => Some (or_text (default "" error) "Failed to fetch stock data")
  end.

(** The rest of [loadData()] once its [fetch] has completed with [r]:
    the [try] body or the [catch] block, then [finally]. *)
Definition loadData_resume (r : fetch_result) (c : card) : card :=
  let c1 :=
    match thrown r, r with
    | None, Json _ d _ => setStatus "success" "Data loaded" (with_data d c)
    | Some m, _ => setStatus "error" "Failed to load" (setError true m c)
    | None, _ => c
    end in
  with_outstanding (pred (outstanding c1)) (setLoading false c1).

Definition refresh (c : card) : card * nat := loadData c.

Definition retry (c : card) : card * nat := loadData (setError false "" c).

Definition stopAutoRefresh (c : card) : card := with_timer false c.

Definition startAutoRefresh (c : card) : card := with_timer true (stopAutoRefresh c).

(** The callback of the [setInterval] of [startAutoRefresh]. *)
Definition tick (hidden : bool) (c : card) : card * nat :=
  if negb hidden && negb (isLoading c) then loadData c else (c, 0%nat).

(** [new StockCard(symbol, container, options)]. *)
Definition create (sym : string) (o : options) : card * nat :=
  let c0 := {| symbol := Validation.toUpperCase sym; data := None; previousData := None;
               isLoading := false; hasError := false;
               errorMessage := "Failed to load data";
               statusType := ""; statusText := "Ready";
               refreshTimer := false; outstanding := 0 |} in
  let '(c1, n) := loadData c0 in
  (if autoRefresh o then startAutoRefresh c1 else c1, n).

(** What can happen to a card next. *)
Inductive event :=
| Refresh
| Retry
| Tick (hidden : bool)
| Completes (r : fetch_result).

(** One event: the card afterwards and the number of [fetch] calls issued.
    A timer that is not armed does not tick, and only a [fetch] that is
    outstanding can complete. *)
Definition step (c : card) (e : event) : card * nat :=
  match e with
  | Refresh => refresh c
  | Retry => retry c
  | Tick hidden => if refreshTimer c then tick hidden c else (c, 0%nat)
  | Completes r =>
      if (0 <? outstanding c)%nat then (loadData_resume r c, 0%nat) else (c, 0%nat)
  end.

(** A run of events, each stamped with the clock reading at which it
    happens; the log has, per event, that reading and the number of
    [fetch] calls the event issued. *)
Fixpoint run (c : card) (events : list (Z * event)) : card * list (Z * nat) :=
  match events with
  | [] => (c, [])
  | (at_, e) :: rest =>
      let '(c1, n) := step c e in
      let '(c2, log) := run c1 rest in
      (c2, (at_, n) :: log)
  end.

(** A completion that takes the [catch] branch. *)
Definition failed (r : fetch_result) : bool :=
  match thrown r with Some _ => true | None => false end.

(** The number of failed completions at the end of a run, not
    interrupted by a successful one. *)
Definition failures_in_a_row (events : list (Z * event)) : nat :=
  fold_left
    (fun n te => match snd te with
                 | Completes r => if failed r then S n else 0%nat
                 | _ => n
                 end)
    events 0%nat.

(** Auto-pause as the specification words it: once MAX_RETRIES failures in
    a row have been seen, the last at [t3], no event before
    [t3 + AUTO_RESUME_DELAY] issues a fetch.  The specification's wording,
    not code. *)
Definition spec_auto_pause (cfg : Config.config) : Prop :=
  Config.AUTO_PAUSE_ON_ERROR (Config.POLLING cfg) = true ->
  forall sym o events t3 r at_ e,
    Config.MAX_RETRIES (Config.POLLING cfg)
      <= Z.of_nat (failures_in_a_row (events ++ [(t3, Completes r)])) ->
    t3 <= at_ < t3 + Config.AUTO_RESUME_DELAY (Config.POLLING cfg) ->
    snd (step (fst (run (fst (create sym o)) (events ++ [(t3, Completes r)]))) e) = 0%nat.

(** The card is in one of two states: loading with one [fetch]
    outstanding, or not loading with none. *)
Definition consistent (c : card) : Prop :=
  (isLoading c = true /\ outstanding c = 1%nat)
  \/ (isLoading c = false /\ outstanding c = 0%nat).

End Card.


(** ** Utils.makeRequest: runs of any length, and its caller reportError *)

Module Retry.

(** The host's calls when each of the attempts reported by [fs] fails
    through one callback and its retry timer then expires. *)
Definition failures (fs : list Request.callback) : list Request.event :=
  flat_map (fun f => [Request.Calls f; Request.TimerFires]) fs.

(** The rejection that the branch of a failure callback passes to [reject]. *)
Definition reason (f : Request.callback) : Request.settlement :=
  match f with
  | Request.onreadystatechange _ status => Request.RejectedHttp status
  | Request.onerror => Request.RejectedNetwork
  | Request.ontimeout => Request.RejectedTimeout
  end.

(** The waits before the attempts [first], [first + 1], ... ([count] of
    them): the delay times the number of attempts made so far. *)
Definition waits (delay : Z) (first count : nat) : list Z :=
  map (fun i => delay * Z.of_nat i) (seq first count).

(** The [retries] that [reportError] passes to [makeRequest]. *)
Definition reportError_options : Request.options :=
  {| Request.retries := Some 1%nat; Request.retryDelay := None |}.

End Retry.


(** ** Utils.createRateLimiter *)

Module RateLimiter.

(** The [while] loop of [isAllowed]: entries are shifted off the front of
    [requests] while the first one has left the window. *)
Fixpoint expire (now timeWindow : Z) (requests : list Z) : list Z :=
  match requests with
  | r :: rest =>
      if r <=? now - timeWindow then expire now timeWindow rest else r :: rest
  | [] => []
  end.

(** One call of the function that [createRateLimiter(maxRequests,
    timeWindow)] returns, at clock reading [now]: its answer and the
    [requests] array afterwards. *)
Definition isAllowed (maxRequests timeWindow now : Z) (requests : list Z)
    : bool * list Z :=
  let kept := expire now timeWindow requests in
  if Z.of_nat (length kept) <? maxRequests then (true, kept ++ [now])
  else (false, kept).

(** Successive calls at the given clock readings: the answers, and the
    array afterwards. *)
Fixpoint calls (maxRequests timeWindow : Z) (requests : list Z) (times : list Z)
    : list bool * list Z :=
  match times with
  | [] => ([], requests)
  | now :: rest =>
      let '(ok, requests1) := isAllowed maxRequests timeWindow now requests in
      let '(answers, requests2) := calls maxRequests timeWindow requests1 rest in
      (ok :: answers, requests2)
  end.

(** The clock readings of the calls that were allowed. *)
Fixpoint allowed (times : list Z) (answers : list bool) : list Z :=
  match times, answers with
  | t :: times', true :: answers' => t :: allowed times' answers'
  | _ :: times', false :: answers' => allowed times' answers'
  | _, _ => []
  end.

(** The readings that lie less than [timeWindow] before [now]. *)
Definition recent (now timeWindow : Z) (l : list Z) : list Z :=
  List.filter (fun r => now - timeWindow <? r) l.

End RateLimiter.


(** ** Utils: clearing localStorage, and the error log kept in it *)

Module StorageOps.

(** [clearLocalStorage(prefix)]: with a truthy prefix the keys that start
    with it are collected and then removed one by one; otherwise
    [localStorage.clear()].  Returns the success flag and the store. *)
Definition clearLocalStorage {V} (prefix : option string)
    (store : gmap string (Storage.stored V)) : bool * gmap string (Storage.stored V) :=
  match prefix with
  | Some p =>
      if String.eqb p "" then (true, ∅)
      else
        let keysToRemove :=
          List.filter (fun key => negb (String.eqb key "") && String.prefix p key)
            (map fst (map_to_list store)) in
        (true, foldr delete store keysToRemove)
  | None => (true, ∅)
  end.

(** The key of the error log. *)
Definition error_tracking : string := "error-tracking".

(** [errors.splice(0, errors.length - 100)] when more than 100 are held. *)
Definition keep_last_100 {E} (errors : list E) : list E :=
  if (100 <? length errors)%nat then drop (length errors - 100) errors else errors.

(** [trackError(errorInfo)] at clock reading [now]: the log is read (an
    empty array when missing), the error is pushed, the log is cut to its
    last 100 entries and written back without expiry. *)
Definition trackError {E}
    (throws : gmap string (Storage.stored (list E)) -> string
              -> Storage.item (list E) -> bool)
    (now : Z) (errorInfo : E) (store : gmap string (Storage.stored (list E)))
    : gmap string (Storage.stored (list E)) :=
  let '(errors, store1) := Storage.getLocalStorage now error_tracking [] store in
  snd (Storage.setLocalStorage throws now error_tracking
         (keep_last_100 (errors ++ [errorInfo])) None store1).

(** The log as a later [getLocalStorage('error-tracking', [])] returns it. *)
Definition tracked {E} (now : Z) (store : gmap string (Storage.stored (list E)))
    : list E :=
  fst (Storage.getLocalStorage now error_tracking [] store).

(** Errors tracked one after the other, at the given clock readings. *)
Fixpoint trackErrors {E}
    (throws : gmap string (Storage.stored (list E)) -> string
              -> Storage.item (list E) -> bool)
    (errors : list (Z * E)) (store : gmap string (Storage.stored (list E)))
    : gmap string (Storage.stored (list E)) :=
  match errors with
  | [] => store
  | (now, e) :: rest => trackErrors throws rest (trackError throws now e store)
  end.

(** The state of the log: missing, or an entry without expiry holding [l]. *)
Definition log_holds {E} (store : gmap string (Storage.stored (list E)))
    (l : list E) : Prop :=
  (store !! error_tracking = None /\ l = [])
  \/ exists t, store !! error_tracking
               = Some (Storage.Entry {| Storage.value := l; Storage.timestamp := t;
                                        Storage.expiry := None |}).

End StorageOps.


(** ** Utils.getTimeUntilNextUpdate *)

Module Countdown.

(** [seconds] is [None] when the code returns NaN. *)
Record timeLeft := {
  text : string;
  seconds : option Z;
  expired : bool
}.

(** The time value that [new Date(t)] holds for an integer [t]: [None]
    is an Invalid Date, which is what a value beyond 8.64e15 ms from the
    epoch gives. *)
Definition MAX_TIME : Z := 8640000000000000.

Definition TimeClip (t : Z) : option Z :=
  if Z.abs t <=? MAX_TIME then Some t else None.

(** [getTimeUntilNextUpdate(interval, lastUpdate)] at clock reading [now],
    for a [lastUpdate] given as a time stamp in milliseconds ([None] when
    it is missing) and an interval of whole milliseconds.  The clock reads
    a time from the epoch on; the integers that then arise are below 2^53,
    for which the sum, the difference and [Math.ceil(remaining / 1000)] are
    exact.  With an Invalid Date [remaining] is NaN: it is not [=== 0], and
    [seconds] and [minutes] are NaN as well. *)
Definition getTimeUntilNextUpdate (now interval : Z) (lastUpdate : option Z)
    : timeLeft :=
  match lastUpdate with
  | None => {| text := "--"; seconds := Some 0; expired := true |}
  | Some last =>
      if last =? 0 then {| text := "--"; seconds := Some 0; expired := true |}
      else
        let lastUpdateDate := TimeClip last in
        let nextUpdate := lastUpdateDate ≫= (fun t => TimeClip (t + interval)) in
        match nextUpdate with
        | None => {| text := "NaNs"; seconds := None; expired := false |}
        | Some next =>
            let remaining := Z.max 0 (next - now) in
            if remaining =? 0
            then {| text := "Now"; seconds := Some 0; expired := true |}
            else
              let seconds := (remaining + 999) / 1000 in
              let minutes := seconds / 60 in
              let remainingSeconds := seconds mod 60 in
              {| text := if minutes >? 0
                         then (pretty minutes ++ "m " ++ pretty remainingSeconds ++ "s")%string
                         else (pretty seconds ++ "s")%string;
                 seconds := Some seconds;
                 expired := false |}
        end
  end.

End Countdown.


(** ** Utils.debounce and Utils.throttle *)

Module Debounce.

(** What happens to a debounced function: it is called with arguments,
    or its pending timer expires. *)
Inductive event (A : Type) :=
| Call (args : A)
| TimerFires.
Arguments Call {A} args.
Arguments TimerFires {A}.

(** One event.  The closure's [timeout] is the pending timer, kept with
    the arguments that its [later] callback captured; the result is the new
    [timeout] and the arguments [func] was applied to, if it was. *)
Definition step {A} (immediate : bool) (timeout : option A) (e : event A)
    : option A * list A :=
  match e with
  | Call args =>
      let callNow := immediate && (match timeout with None => true | Some _ => false end) in
      (Some args, if callNow then [args] else [])
  | TimerFires =>
      match timeout with
      | Some args => (None, if negb immediate then [args] else [])
      | None => (None, [])
      end
  end.

(** A run of events: the pending timer afterwards and the applications of
    [func], in order. *)
Fixpoint run {A} (immediate : bool) (timeout : option A) (events : list (event A))
    : option A * list A :=
  match events with
  | [] => (timeout, [])
  | e :: rest =>
      let '(timeout1, applied) := step immediate timeout e in
      let '(timeout2, later) := run immediate timeout1 rest in
      (timeout2, applied ++ later)
  end.

End Debounce.


Module Throttle.

(** The closure of a throttled function: [lastRan], and the pending timer
    [lastFunc] with the arguments its callback captured. *)
Record state (A : Type) := {
  lastRan : option Z;
  lastFunc : option A
}.
Arguments lastRan {A} s.
Arguments lastFunc {A} s.

(** A call or the expiry of the pending timer, at a clock reading. *)
Inductive event (A : Type) :=
| Call (now : Z) (args : A)
| TimerFires (now : Z).
Arguments Call {A} now args.
Arguments TimerFires {A} now.

(** One event: the closure afterwards and, when [func] ran, the clock
    reading and the arguments. *)
Definition step {A} (limit : Z) (st : state A) (e : event A)
    : state A * list (Z * A) :=
  match e with
  | Call now args =>
      if negb (Js.truthyZ (lastRan st)) then
        ({| lastRan := Some now; lastFunc := lastFunc st |}, [(now, args)])
      else ({| lastRan := lastRan st; lastFunc := Some args |}, [])
  | TimerFires now =>
      match lastFunc st with
      | Some args =>
          match lastRan st with
          | Some ran =>
              if now - ran >=? limit then
                ({| lastRan := Some now; lastFunc := None |}, [(now, args)])
              else ({| lastRan := lastRan st; lastFunc := None |}, [])
          | None => ({| lastRan := lastRan st; lastFunc := None |}, [])
          end
      | None => (st, [])
      end
  end.

Fixpoint run {A} (limit : Z) (st : state A) (events : list (event A))
    : state A * list (Z * A) :=
  match events with
  | [] => (st, [])
  | e :: rest =>
      let '(st1, ran) := step limit st e in
      let '(st2, later) := run limit st1 rest in
      (st2, ran ++ later)
  end.

Definition fresh {A} : state A := {| lastRan := None; lastFunc := None |}.

Definition at_ {A} (e : event A) : Z :=
  match e with Call now _ => now | TimerFires now => now end.

(** Each reading is at least [limit] after the one before it. *)
Fixpoint spaced (limit : Z) (times : list Z) : Prop :=
  match times with
  | a :: (b :: _) as rest => limit <= b - a /\ spaced limit rest
  | _ => True
  end.

End Throttle.


(** ** StockCard.updatePriceDisplay *)

Module PriceDisplay.

(** What [updatePriceDisplay] writes: the numbers behind the three texts
    and the [positive] or [negative] class.  The fields of the quote are
    finite numbers and the arithmetic is exact: a text that [parseFloat]
    reads as NaN, and the rounding and the overflow of doubles, are not
    modelled, so nothing is claimed here about a percentage being finite. *)
Record shown := {
  priceValue : Q;
  changeValue : Q;
  changePercentage : Js.jsnum;
  positive : bool
}.

Definition updatePriceDisplay (d : Js.quote) : shown :=
  let price := Js.first_truthy (Js.regularMarketPrice d) (Js.price d) 0 in
  let previousClose :=
    Js.first_truthy (Js.regularMarketPreviousClose d) (Js.previousClose d) price in
  let change := (price - previousClose)%Q in
  let changePercent :=
    if negb (Qeq_bool previousClose 0)
    then Js.scale (Js.div change previousClose) 100
    else Js.Num 0 in
  {| priceValue := price;
     changeValue := change;
     changePercentage := changePercent;
     positive := Js.geb change 0 |}.

End PriceDisplay.


(** ** StockDashboard: the cards and the watchlist *)

Module Board.

Record options := {
  maxCards : nat;
  refreshInterval : Z
}.

(** [stockCards] is a [Map] and [watchlist] a [Set]: both keep their keys
    in the order of insertion. *)
Record dashboard := {
  stockCards : list (string * Card.card);
  watchlist : list string
}.

(** [new StockDashboard()] before any card is added. *)
Definition create : dashboard := {| stockCards := []; watchlist := [] |}.

(** [Map.prototype.has]. *)
Definition has (symbol : string) (m : list (string * Card.card)) : bool :=
  existsb (fun kv => String.eqb (fst kv) symbol) m.

(** [Map.prototype.set]: the value of a key that is present is replaced in
    place, a new key goes to the end. *)
Fixpoint set (symbol : string) (card : Card.card) (m : list (string * Card.card))
    : list (string * Card.card) :=
  match m with
  | [] => [(symbol, card)]
  | (k, v) :: rest =>
      if String.eqb k symbol then (k, card) :: rest
      else (k, v) :: set symbol card rest
  end.

(** [Set.prototype.add]. *)
Definition add (symbol : string) (s : list string) : list string :=
  if existsb (fun k => String.eqb k symbol) s then s else s ++ [symbol].

(** [Map.prototype.delete] and [Set.prototype.delete]. *)
Definition delete_card (symbol : string) (m : list (string * Card.card))
    : list (string * Card.card) :=
  List.filter (fun kv => negb (String.eqb (fst kv) symbol)) m.

Definition delete_symbol (symbol : string) (s : list string) : list string :=
  List.filter (fun k => negb (String.eqb k symbol)) s.

(** [addStockCard(symbol)] up to the two updates: a card is constructed
    with [autoRefresh: true] and stored. *)
Definition addStockCard (o : options) (symbol : string) (d : dashboard) : dashboard :=
  let stockCard :=
    fst (Card.create symbol {| Card.autoRefresh := true;
                               Card.refreshInterval := refreshInterval o |}) in
  {| stockCards := set symbol stockCard (stockCards d);
     watchlist := add symbol (watchlist d) |}.

(** [handleAddStock()] with [input] in the search box. *)
Definition handleAddStock (o : options) (input : string) (d : dashboard) : dashboard :=
  let symbol := Validation.toUpperCase (Validation.trim input) in
  if String.eqb symbol "" then d
  else if has symbol (stockCards d) then d
  else if (maxCards o <=? length (stockCards d))%nat then d
  else addStockCard o symbol d.

(** One turn of the loop of [addDefaultStocks], for one default symbol. *)
Definition addDefaultStock (o : options) (symbol : string) (d : dashboard) : dashboard :=
  if negb (has symbol (stockCards d)) && (length (stockCards d) <? maxCards o)%nat
  then addStockCard o symbol d
  else d.

Definition handleCardRemoved (symbol : string) (d : dashboard) : dashboard :=
  {| stockCards := delete_card symbol (stockCards d);
     watchlist := delete_symbol symbol (watchlist d) |}.

(** [clearWatchlist()], with the answer to its [confirm] dialog. *)
Definition clearWatchlist (confirmed : bool) (d : dashboard) : dashboard :=
  if (length (stockCards d) =? 0)%nat then d
  else if confirmed then {| stockCards := []; watchlist := [] |}
  else d.

(** What reaches the dashboard.  The loop of [addDefaultStocks] awaits
    between its turns, so other events can come in between them: each turn
    is an event.  [stockCardRemoved] events carry the symbol of the card
    that dispatched them, 300 ms after its [remove()]. *)
Inductive event :=
| AddStock (input : string)
| DefaultStock (symbol : string)
| CardRemoved (symbol : string)
| ClearWatchlist (confirmed : bool).

Definition step (o : options) (d : dashboard) (e : event) : dashboard :=
  match e with
  | AddStock input => handleAddStock o input d
  | DefaultStock symbol => addDefaultStock o symbol d
  | CardRemoved symbol => handleCardRemoved symbol d
  | ClearWatchlist confirmed => clearWatchlist confirmed d
  end.

Definition run (o : options) (d : dashboard) (events : list event) : dashboard :=
  fold_left (step o) events d.

(** [addDefaultStocks()] when nothing comes in between its turns. *)
Definition addDefaultStocks (o : options) (defaultSymbols : list string)
    (d : dashboard) : dashboard :=
  run o d (map DefaultStock defaultSymbols).

(** The cards and the watchlist hold the same keys in the same order, no
    key twice, at most [maxCards] of them, and the symbol of each card is
    its key in capitals, as the constructor of the card makes it. *)
Definition coherent (o : options) (d : dashboard) : Prop :=
  map fst (stockCards d) = watchlist d
  /\ List.NoDup (watchlist d)
  /\ (length (stockCards d) <= maxCards o)%nat
  /\ List.Forall (fun kv => Card.symbol (snd kv) = Validation.toUpperCase (fst kv))
       (stockCards d).

(** Every card is stored under the symbol it shows. *)
Definition own_symbols (d : dashboard) : Prop :=
  List.Forall (fun kv => Card.symbol (snd kv) = fst kv) (stockCards d).

(** A text of ASCII characters, for which [Validation.trim] and
    [Validation.toUpperCase] are the methods of the string. *)
Definition plain (s : string) : bool :=
  forallb (fun c => (nat_of_ascii c <? 128)%nat) (list_ascii_of_string s).

(** An event whose text is ASCII and, for a default symbol, written in
    capitals. *)
Definition normal (e : event) : Prop :=
  match e with
  | AddStock input => plain input = true
  | DefaultStock symbol =>
      plain symbol = true /\ Validation.toUpperCase symbol = symbol
  | CardRemoved _ => True
  | ClearWatchlist _ => True
  end.

(** [StockDashboard.checkAlerts()]: the entries of [stockAlerts] that are
    listed under "active alerts".  The entries are enumerated in the order
    of the finite map, which is not the order of [Object.entries]; only
    membership is meant. *)
Definition activeAlerts (alerts : gmap string Alerts.alert)
    : list (string * Alerts.alert) :=
  List.filter (fun sa => negb (Alerts.triggered (snd sa))) (map_to_list alerts).

End Board.


(** * Properties *)

(** ** Configuration *)

Lemma validation_errors_nil (c : Config.config) :
  Config.validation_errors c = [] <-> Config.well_configured c.
Proof.
  unfold Config.validation_errors, Config.well_configured.
  rewrite Z.geb_leb, !Z.gtb_ltb.
  destruct (Z.leb_spec (Config.MAX_INTERVAL (Config.POLLING c))
                       (Config.MIN_INTERVAL (Config.POLLING c)));
  destruct (Z.ltb_spec (Config.DEFAULT_INTERVAL (Config.POLLING c))
                       (Config.MIN_INTERVAL (Config.POLLING c)));
  destruct (Z.ltb_spec (Config.MAX_INTERVAL (Config.POLLING c))
                       (Config.DEFAULT_INTERVAL (Config.POLLING c)));
  destruct (Z.leb_spec (Config.MAX_SIZE (Config.CACHE c)) 0);
  destruct (Z.ltb_spec (Config.CURRENCY_DECIMALS (Config.FORMAT c)) 0);
  destruct (Z.ltb_spec 10 (Config.CURRENCY_DECIMALS (Config.FORMAT c)));
  simpl; split; intros; try discriminate; try lia; try reflexivity.
Qed.

Lemma validateConfig_returns (c : Config.config) :
  Config.validateConfig c = Config.Returns tt <-> Config.well_configured c.
Proof.
  rewrite <- validation_errors_nil. unfold Config.validateConfig.
  destruct (Config.validation_errors c); split; intros; congruence.
Qed.

(** C10: [initializeConfig] returns [true] exactly when the merged
    configuration satisfies the four constraints
    (MIN_INTERVAL < MAX_INTERVAL, MIN_INTERVAL <= DEFAULT_INTERVAL <=
    MAX_INTERVAL, MAX_SIZE > 0, 0 <= CURRENCY_DECIMALS <= 10); when one of
    them is violated [validateConfig] throws a non-empty list of errors and
    [initializeConfig] catches it and returns [false]. *)
Theorem initializeConfig_validates (c : Config.config) :
  let c' := Config.applyEnvironmentConfig c in
  (fst (Config.initializeConfig c) = true <-> Config.well_configured c')
  /\ (~ Config.well_configured c' ->
      (exists e es, Config.validateConfig c' = Config.Throws (e :: es))
      /\ Config.initializeConfig c = (false, c')).
Proof.
  intros c'. unfold Config.initializeConfig. fold c'.
  pose proof (validateConfig_returns c') as Hv.
  destruct (Config.validateConfig c') as [[]|errors] eqn:E; simpl.
  - split.
    + split; intros _; [apply Hv | ]; reflexivity.
    + intros Hn. exfalso. apply Hn, Hv. reflexivity.
  - split.
    + split; [discriminate | intros Hw; apply Hv in Hw; discriminate].
    + intros _. split; [| reflexivity].
      unfold Config.validateConfig in E.
      destruct (Config.validation_errors c') as [|e es]; [discriminate |].
      exists e, es. symmetry; exact E.
Qed.

(** The shipped configuration passes, and a configuration whose
    MAX_SIZE is 0 is refused. *)
Lemma initializeConfig_validates_witness :
  fst (Config.initializeConfig Config.CONFIG) = true
  /\ Config.initializeConfig
       {| Config.APP_ENVIRONMENT := "staging";
          Config.API := Config.API Config.CONFIG;
          Config.POLLING := Config.POLLING Config.CONFIG;
          Config.CACHE := {| Config.ENABLED := true;
                             Config.STOCK_DATA_DURATION := 30000;
                             Config.MAX_ENTRIES := 100;
                             Config.MAX_SIZE := 0 |};
          Config.FORMAT := Config.FORMAT Config.CONFIG;
          Config.MARKET := Config.MARKET Config.CONFIG;
          Config.DEBUG := Config.DEBUG Config.CONFIG |}
     = (false,
        Config.applyEnvironmentConfig
          {| Config.APP_ENVIRONMENT := "staging";
             Config.API := Config.API Config.CONFIG;
             Config.POLLING := Config.POLLING Config.CONFIG;
             Config.CACHE := {| Config.ENABLED := true;
                                Config.STOCK_DATA_DURATION := 30000;
                                Config.MAX_ENTRIES := 100;
                                Config.MAX_SIZE := 0 |};
             Config.FORMAT := Config.FORMAT Config.CONFIG;
             Config.MARKET := Config.MARKET Config.CONFIG;
             Config.DEBUG := Config.DEBUG Config.CONFIG |}).
Proof.
  split.
  - apply (proj1 (initializeConfig_validates Config.CONFIG)).
    unfold Config.well_configured. simpl. lia.
  - apply (proj2 (initializeConfig_validates _)).
    unfold Config.well_configured. simpl. lia.
Defined.

(** ** Price alerts *)

(** An alert that has fired is never evaluated again. *)
Lemma checkAlerts_triggered (symbol : string) (data : option Js.quote)
    (alerts : gmap string Alerts.alert) (a : Alerts.alert) :
  alerts !! symbol = Some a -> Alerts.triggered a = true ->
  Alerts.checkAlerts symbol data alerts = (alerts, None).
Proof.
  intros Ha Ht. unfold Alerts.checkAlerts. rewrite Ha, Ht.
  destruct data; reflexivity.
Qed.

(** A threshold below the creation time stamp is always read as a
    lower bound: the alert is reached when the price is at or under it. *)
Lemma reached_after_epoch (a : Alerts.alert) (currentPrice : Q) :
  (Alerts.price a < inject_Z (Alerts.created a))%Q ->
  Alerts.reached a currentPrice = Js.leb currentPrice (Alerts.price a).
Proof.
  intros Hlt. unfold Alerts.reached, Js.geb, Js.ltb, Js.leb.
  assert (Hf : Qle_bool (inject_Z (Alerts.created a)) (Alerts.price a) = false).
  { destruct (Qle_bool (inject_Z (Alerts.created a)) (Alerts.price a)) eqn:E; [| reflexivity].
    apply Qle_bool_iff in E. exfalso. apply (Qlt_not_le _ _ Hlt). exact E. }
  rewrite Hf. reflexivity.
Qed.

(** C2: the alert set by [setAlert(100)] on 15 January 2025 and fed the
    prices 95, 98, 101, 105 fires once, but on the first price (95), not on
    101 where an [above] alert with threshold 100 is first reached. *)
Theorem above_alert_fires_on_first_price :
  snd (Alerts.feed "AAPL" [95; 98; 101; 105]%Q
         (Alerts.setAlert 1736899200000 "AAPL" 100%Q ∅))
    = [true; false; false; false]
  /\ map (fun p => Alerts.spec_above_fires p 100%Q) [95; 98; 101; 105]%Q
    = [false; false; true; true].
Proof. split; vm_compute; reflexivity. Qed.

(** C1: the code keeps no price of creation and no direction.  An alert
    with threshold 5 created when the price was 100 does not fire at 110,
    a move of 10 percent; an alert with threshold 50 created when the price
    was 40 fires at 45, a move of 12.5 percent. *)
Theorem change_alert_ignores_creation_price :
  (Alerts.spec_change_fires 110 100 5 = true
   /\ snd (Alerts.checkAlerts "AAPL" (Some (Alerts.priced 110))
             (Alerts.setAlert 1736899200000 "AAPL" 5%Q ∅)) = None)
  /\ (Alerts.spec_change_fires 45 40 50 = false
      /\ snd (Alerts.checkAlerts "AAPL" (Some (Alerts.priced 45))
                (Alerts.setAlert 1736899200000 "AAPL" 50%Q ∅)) = Some (50%Q, 45%Q)).
Proof. repeat split; vm_compute; reflexivity. Qed.

(** ** localStorage with expiry *)

Lemma setLocalStorage_accepted {V}
    (throws : gmap string (Storage.stored V) -> string -> Storage.item V -> bool)
    (now : Z) (key : string) (v : V) (ttl : option Z)
    (store : gmap string (Storage.stored V)) :
  fst (Storage.setLocalStorage throws now key v ttl store) = true ->
  snd (Storage.setLocalStorage throws now key v ttl store)
  = <[key := Storage.Entry {| Storage.value := v; Storage.timestamp := now;
                              Storage.expiry := Storage.expiresAt now ttl |}]> store.
Proof.
  unfold Storage.setLocalStorage.
  destruct (throws store key _); simpl; [discriminate | reflexivity].
Qed.

Lemma expiresAt_some (now t : Z) (ttl : option Z) :
  Storage.expiresAt now ttl = Some t -> ttl = Some (t - now).
Proof.
  destruct ttl as [t0|]; simpl; [| discriminate].
  destruct (negb (t0 =? 0)); [| discriminate].
  intros [= <-]. f_equal. lia.
Qed.

(** C3, counterexample: the cache holds the quote of AAPL as of 200; a
    write of the quote as of 100 is accepted and replaces it. *)
Lemma stale_write_is_accepted :
  let old := {| Storage.value := Js.quote_at 150 200; Storage.timestamp := 1000;
                Storage.expiry := Some 31000 |} in
  let store : gmap string (Storage.stored Js.quote) :=
    {[ "stock-data-AAPL"%string := Storage.Entry old ]} in
  Js.asOf (Js.quote_at 149 100) < Js.asOf (Storage.value old)
  /\ Storage.setLocalStorage Storage.roomy 2000 "stock-data-AAPL" (Js.quote_at 149 100)
       (Some 30000) store
     = (true, {[ "stock-data-AAPL"%string :=
                   Storage.Entry {| Storage.value := Js.quote_at 149 100;
                                    Storage.timestamp := 2000;
                                    Storage.expiry := Some 32000 |} ]})
  /\ ~ Storage.spec_rejects_stale Js.asOf Storage.roomy.
Proof.
  intros old store. split; [vm_compute; reflexivity |].
  assert (Hw : Storage.setLocalStorage Storage.roomy 2000 "stock-data-AAPL"
                 (Js.quote_at 149 100) (Some 30000) store
               = (true, {[ "stock-data-AAPL"%string :=
                   Storage.Entry {| Storage.value := Js.quote_at 149 100;
                                    Storage.timestamp := 2000;
                                    Storage.expiry := Some 32000 |} ]})).
  { unfold Storage.setLocalStorage, Storage.roomy, store. simpl.
    reflexivity. }
  split; [exact Hw |].
  intros Hspec.
  specialize (Hspec 2000 "stock-data-AAPL"%string (Js.quote_at 149 100) (Some 30000) store old).
  rewrite Hw in Hspec. simpl in Hspec.
  assert (Hl : store !! "stock-data-AAPL"%string = Some (Storage.Entry old))
    by apply lookup_singleton_eq.
  specialize (Hspec Hl ltac:(vm_compute; reflexivity)).
  rewrite <- Hspec in Hl. rewrite lookup_singleton_eq in Hl.
  discriminate Hl.
Qed.

(** C3, as the code has it: a write that [setItem] accepts replaces the
    entry under its key whatever was stored there, leaves the other keys
    alone, and is what a read up to its expiry returns; a write that
    [setItem] refuses leaves the store unchanged. *)
Theorem setLocalStorage_last_write_wins {V}
    (throws : gmap string (Storage.stored V) -> string -> Storage.item V -> bool)
    (now : Z) (key : string) (v : V) (ttl : option Z)
    (store : gmap string (Storage.stored V)) :
  let after := Storage.setLocalStorage throws now key v ttl store in
  (fst after = true ->
     snd after !! key
     = Some (Storage.Entry {| Storage.value := v; Storage.timestamp := now;
                              Storage.expiry := Storage.expiresAt now ttl |})
     /\ (forall k, k <> key -> snd after !! k = store !! k)
     /\ (forall now' d, (forall t, ttl = Some t -> now' <= now + t) ->
           fst (Storage.getLocalStorage now' key d (snd after)) = v))
  /\ (fst after = false -> snd after = store).
Proof.
  intros after. split.
  - intros Hok.
    pose proof (setLocalStorage_accepted throws now key v ttl store Hok) as Heq.
    fold after in Heq. rewrite Heq. split; [| split].
    + apply lookup_insert_eq.
    + intros k Hk. apply lookup_insert_ne. congruence.
    + intros now' d Hle. unfold Storage.getLocalStorage.
      rewrite lookup_insert_eq. cbn [Storage.expiry Storage.value].
      destruct (Storage.expiresAt now ttl) as [t|] eqn:He; [| reflexivity].
      apply expiresAt_some in He. specialize (Hle _ He).
      destruct (Z.gtb_spec now' t); [lia |].
      rewrite andb_false_r. reflexivity.
  - unfold after, Storage.setLocalStorage.
    destruct (throws store key _); simpl; [reflexivity | discriminate].
Qed.

(** A stale write on a roomy host is read back. *)
Lemma setLocalStorage_last_write_wins_witness :
  fst (Storage.getLocalStorage 2500 "stock-data-AAPL" (Js.quote_at 0 0)
         (snd (Storage.setLocalStorage Storage.roomy 2000 "stock-data-AAPL"
                 (Js.quote_at 149 100) (Some 30000)
                 {[ "stock-data-AAPL"%string :=
                      Storage.Entry {| Storage.value := Js.quote_at 150 200;
                                       Storage.timestamp := 1000;
                                       Storage.expiry := Some 31000 |} ]})))
  = Js.quote_at 149 100.
Proof.
  refine (proj2 (proj2 (proj1 (setLocalStorage_last_write_wins Storage.roomy 2000
            "stock-data-AAPL" (Js.quote_at 149 100) (Some 30000) _) _)) 2500 _ _).
  - reflexivity.
  - intros t [= <-]. lia.
Defined.

(** C6: an entry stored with an expiry time is a miss (the default, and
    the entry is removed) when read strictly after that time, and a hit
    (the stored value, store untouched) when read at or before it. *)
Theorem getLocalStorage_expiry {V} (store : gmap string (Storage.stored V))
    (key : string) (i : Storage.item V) (expiresAt now : Z) (defaultValue : V) :
  store !! key = Some (Storage.Entry i) ->
  Storage.expiry i = Some expiresAt ->
  expiresAt <> 0 ->
  (now > expiresAt ->
     Storage.getLocalStorage now key defaultValue store = (defaultValue, delete key store))
  /\ (now <= expiresAt ->
     Storage.getLocalStorage now key defaultValue store = (Storage.value i, store)).
Proof.
  intros Hk He Hnz. unfold Storage.getLocalStorage. rewrite Hk, He. simpl.
  destruct (Z.eqb_spec expiresAt 0) as [|_]; [contradiction |]. simpl.
  destruct (Z.gtb_spec now expiresAt); split; intros; try lia; reflexivity.
Qed.

(** An entry that expires at 31000 is still served at 31000 and is gone
    at 31001. *)
Lemma getLocalStorage_expiry_witness :
  let i := {| Storage.value := Js.quote_at 150 200; Storage.timestamp := 1000;
              Storage.expiry := Some 31000 |} in
  let store : gmap string (Storage.stored Js.quote) :=
    {[ "stock-data-AAPL"%string := Storage.Entry i ]} in
  Storage.getLocalStorage 31001 "stock-data-AAPL" (Js.quote_at 0 0) store
    = (Js.quote_at 0 0, delete "stock-data-AAPL"%string store)
  /\ Storage.getLocalStorage 31000 "stock-data-AAPL" (Js.quote_at 0 0) store
    = (Js.quote_at 150 200, store).
Proof.
  intros i store.
  assert (Hk : store !! "stock-data-AAPL"%string = Some (Storage.Entry i))
    by apply lookup_singleton_eq.
  split.
  - apply (proj1 (getLocalStorage_expiry store "stock-data-AAPL" i 31000 31001
                    (Js.quote_at 0 0) Hk eq_refl ltac:(lia))). lia.
  - apply (proj2 (getLocalStorage_expiry store "stock-data-AAPL" i 31000 31000
                    (Js.quote_at 0 0) Hk eq_refl ltac:(lia))). lia.
Defined.

(** ** Request retries *)

Lemma handle_failure (cfg : Config.config) (o : Request.options)
    (cb : Request.callback) (st : Request.state) :
  Request.failure cb ->
  (Request.attempts st < Request.maxAttempts cfg o)%nat ->
  Request.handle cfg o cb st
  = {| Request.attempts := Request.attempts st;
       Request.timers := Request.timers st
                         ++ [Request.delay cfg o * Z.of_nat (Request.attempts st)];
       Request.sent := Request.sent st;
       Request.settled := Request.settled st |}.
Proof.
  intros Hf Hlt.
  assert (Hb : (Request.attempts st <? Request.maxAttempts cfg o)%nat = true)
    by (apply Nat.ltb_lt; exact Hlt).
  destruct cb as [readyState status| |]; unfold Request.handle, Request.retry_or;
    rewrite ?Hb; try reflexivity.
  destruct Hf as [-> Hs]. change (4 =? 4) with true. cbv iota.
  replace ((status >=? 200) && (status <? 300)) with false; [reflexivity |].
  symmetry. apply andb_false_iff. rewrite Z.geb_leb, Z.leb_gt, Z.ltb_ge. lia.
Qed.

Lemma handle_success (cfg : Config.config) (o : Request.options)
    (status : Z) (st : Request.state) :
  200 <= status < 300 ->
  Request.handle cfg o (Request.onreadystatechange 4 status) st
  = Request.settle (Request.Resolved status) st.
Proof.
  intros Hs. unfold Request.handle. change (4 =? 4) with true. cbv iota.
  replace ((status >=? 200) && (status <? 300)) with true; [reflexivity |].
  symmetry. apply andb_true_iff. rewrite Z.geb_leb, Z.leb_le, Z.ltb_lt. lia.
Qed.

(** When every failed attempt reaches exactly one failure callback, three
    attempts are made, after waits of 0, 1 and 2 times RETRY_DELAY, and the
    promise resolves with the third response. *)
Lemma makeRequest_one_callback_per_failure (cfg : Config.config)
    (f1 f2 : Request.callback) (status : Z) :
  Config.RETRY_ATTEMPTS (Config.API cfg) = 3%nat ->
  Request.failure f1 -> Request.failure f2 -> 200 <= status < 300 ->
  Request.makeRequest cfg Request.no_options
    [Request.Calls f1; Request.TimerFires; Request.Calls f2; Request.TimerFires;
     Request.Calls (Request.onreadystatechange 4 status)]
  = {| Request.attempts := 3;
       Request.timers := [];
       Request.sent := [0; Config.RETRY_DELAY (Config.API cfg) * 1;
                        Config.RETRY_DELAY (Config.API cfg) * 2];
       Request.settled := Some (Request.Resolved status) |}.
Proof.
  intros Hmax Hf1 Hf2 Hs.
  assert (Hm : Request.maxAttempts cfg Request.no_options = 3%nat) by exact Hmax.
  unfold Request.makeRequest. cbn [fold_left Request.step].
  rewrite (handle_failure cfg _ f1) by (try exact Hf1; rewrite Hm; simpl; lia).
  cbn [Request.timers Request.attempts Request.sent Request.settled
       Request.attemptRequest app].
  rewrite (handle_failure cfg _ f2) by (try exact Hf2; rewrite Hm; simpl; lia).
  cbn [Request.timers Request.attempts Request.sent Request.settled
       Request.attemptRequest app].
  rewrite handle_success by exact Hs.
  reflexivity.
Qed.

(** C4: a network error makes the browser call [onreadystatechange]
    (readyState 4, status 0) and then [onerror] on the same [xhr]
    (XMLHttpRequest standard, request error steps), and both handlers arm a
    retry.  With RETRY_ATTEMPTS = 3 and RETRY_DELAY = 2000, after one network
    error two timers of 2000 ms are pending, so the second and the third
    attempt both start after 1 x RETRY_DELAY; when the second attempt fails
    before the third answers the promise is rejected, and when the third
    answers first the promise resolves, its attempt having waited 2000 ms
    instead of 4000 ms.  A timeout, which calls [onreadystatechange] and
    then [ontimeout], arms two retries in the same way. *)
Theorem makeRequest_network_error_arms_two_retries :
  let network_error :=
    [Request.Calls (Request.onreadystatechange 4 0); Request.Calls Request.onerror] in
  let answer := [Request.Calls (Request.onreadystatechange 4 200)] in
  Request.makeRequest Config.CONFIG Request.no_options network_error
  = {| Request.attempts := 1; Request.timers := [2000; 2000];
       Request.sent := [0]; Request.settled := None |}
  /\ Request.makeRequest Config.CONFIG Request.no_options
       (network_error ++ [Request.TimerFires; Request.TimerFires]
        ++ network_error ++ answer)
     = {| Request.attempts := 3; Request.timers := [];
          Request.sent := [0; 2000; 2000];
          Request.settled := Some (Request.RejectedHttp 0) |}
  /\ Request.makeRequest Config.CONFIG Request.no_options
       (network_error ++ [Request.TimerFires; Request.TimerFires]
        ++ answer ++ network_error)
     = {| Request.attempts := 3; Request.timers := [];
          Request.sent := [0; 2000; 2000];
          Request.settled := Some (Request.Resolved 200) |}
  /\ Request.makeRequest Config.CONFIG Request.no_options
       [Request.Calls (Request.onreadystatechange 4 0); Request.Calls Request.ontimeout]
     = {| Request.attempts := 1; Request.timers := [2000; 2000];
          Request.sent := [0]; Request.settled := None |}.
Proof. repeat split; vm_compute; reflexivity. Qed.

(** ** Portfolio statistics *)

Lemma visit_not_counted (t : Dashboard.totals) (data : option Js.quote) :
  Dashboard.counted data = false -> Dashboard.visit t data = t.
Proof.
  unfold Dashboard.counted, Dashboard.visit, Js.truthy.
  destruct data as [d|]; [| reflexivity].
  destruct (Js.regularMarketPrice d) as [p|]; [| reflexivity].
  destruct (Js.regularMarketPreviousClose d) as [c|]; [| reflexivity].
  intros ->. reflexivity.
Qed.

Lemma visit_counted (t : Dashboard.totals) (data : option Js.quote) :
  Dashboard.counted data = true ->
  Dashboard.visit t data
  = {| Dashboard.totalValue := Dashboard.totalValue t + Dashboard.price_of data;
       Dashboard.totalChange := Dashboard.totalChange t + Dashboard.change_of data;
       Dashboard.validCards := S (Dashboard.validCards t) |}.
Proof.
  unfold Dashboard.counted, Dashboard.visit, Js.truthy, Dashboard.change_of,
    Dashboard.price_of.
  destruct data as [d|]; [| discriminate]. simpl.
  destruct (Js.regularMarketPrice d) as [p|]; [| discriminate].
  destruct (Js.regularMarketPreviousClose d) as [c|];
    [| rewrite andb_false_r; discriminate].
  intros ->. reflexivity.
Qed.

Lemma fold_visit_filter (l : list (option Js.quote)) (t : Dashboard.totals) :
  fold_left Dashboard.visit l t
  = fold_left Dashboard.visit (List.filter Dashboard.counted l) t.
Proof.
  revert t. induction l as [|d l IH]; intros t; [reflexivity |].
  simpl. destruct (Dashboard.counted d) eqn:E.
  - simpl. apply IH.
  - rewrite visit_not_counted by exact E. apply IH.
Qed.

Lemma fold_visit_sums (l : list (option Js.quote)) (t : Dashboard.totals) :
  let t' := fold_left Dashboard.visit l t in
  let valid := List.filter Dashboard.counted l in
  Dashboard.validCards t' = (Dashboard.validCards t + length valid)%nat
  /\ (Dashboard.totalValue t'
      == Dashboard.totalValue t + Dashboard.sumQ (map Dashboard.price_of valid))%Q
  /\ (Dashboard.totalChange t'
      == Dashboard.totalChange t + Dashboard.sumQ (map Dashboard.change_of valid))%Q.
Proof.
  revert t. induction l as [|d l IH]; intros t; simpl.
  - repeat split; [lia | ring | ring].
  - destruct (Dashboard.counted d) eqn:E.
    + rewrite visit_counted by exact E.
      destruct (IH {| Dashboard.totalValue := Dashboard.totalValue t + Dashboard.price_of d;
                      Dashboard.totalChange := Dashboard.totalChange t + Dashboard.change_of d;
                      Dashboard.validCards := S (Dashboard.validCards t) |})
        as (Hn & Hv & Hc).
      simpl in *. rewrite Hn, Hv, Hc. repeat split; [lia | ring | ring].
    + rewrite visit_not_counted by exact E. apply IH.
Qed.

Lemma filter_map_snd {A B} (f : B -> bool) (l : list (A * B)) :
  List.filter f (map snd l) = map snd (List.filter (fun c => f (snd c)) l).
Proof.
  induction l as [|[a b] l IH]; [reflexivity |]. simpl.
  destruct (f b); simpl; rewrite IH; reflexivity.
Qed.

Lemma totals_of_valid (stockCards : list (string * option Js.quote)) :
  Dashboard.totals_of stockCards
  = Dashboard.totals_of (List.filter (fun c => Dashboard.counted (snd c)) stockCards).
Proof.
  unfold Dashboard.totals_of.
  rewrite fold_visit_filter, filter_map_snd. reflexivity.
Qed.

(** C5, counterexample: with no counted card nothing is written (not 0);
    with previous closes 5 and -5 the denominator is 0 and the result is
    Infinity where the specification says 0; with a total value of -10 the
    result is 0 where the denominator is -5 and the specification gives
    the quotient. *)
Lemma updateStats_guard_is_not_the_denominator :
  Dashboard.portfolioChange (Dashboard.updateStats [("C"%string, None)]) = None
  /\ (Dashboard.portfolioChange
        (Dashboard.updateStats [("X"%string, Some (Js.quote_since 10 5));
                                ("Y"%string, Some (Js.quote_since 10 (-5)))])
      = Some (20%Q, Js.Infinity true)
      /\ Dashboard.spec_changePercent 20 20 = Js.Num 0)
  /\ (Dashboard.portfolioChange
        (Dashboard.updateStats [("X"%string, Some (Js.quote_since (-10) (-5)))])
      = Some ((-5)%Q, Js.Num 0)
      /\ Dashboard.spec_changePercent (-10) (-5) = Js.Num (500 # 5)).
Proof. repeat split; vm_compute; reflexivity. Qed.

(** C5, as the code has it: only the cards whose data has a non-zero price
    and a non-zero previous close are summed, the others contribute
    nothing; when no card counts nothing is written; otherwise the change
    is written with the percentage totalChange / (totalValue - totalChange)
    * 100 when totalValue > 0 (a proper quotient when the denominator is not
    zero), and with 0 when totalValue <= 0.  For A (price 10, change +1),
    B (price 20, change -2) and C without data the total change is -1,
    with or without C. *)
Theorem updateStats_counts_valid_cards (stockCards : list (string * option Js.quote)) :
  let valid := List.filter (fun c => Dashboard.counted (snd c)) stockCards in
  let t := Dashboard.totals_of stockCards in
  let written := Dashboard.portfolioChange (Dashboard.updateStats stockCards) in
  written = Dashboard.portfolioChange (Dashboard.updateStats valid)
  /\ (Dashboard.validCards t = length valid
      /\ (Dashboard.totalValue t
          == Dashboard.sumQ (map (fun c => Dashboard.price_of (snd c)) valid))%Q
      /\ (Dashboard.totalChange t
          == Dashboard.sumQ (map (fun c => Dashboard.change_of (snd c)) valid))%Q)
  /\ (valid = [] -> written = None)
  /\ (valid <> [] -> (0 < Dashboard.totalValue t)%Q ->
      ~ (Dashboard.totalValue t - Dashboard.totalChange t == 0)%Q ->
      written = Some (Dashboard.totalChange t,
                      Js.Num (Dashboard.totalChange t
                              / (Dashboard.totalValue t - Dashboard.totalChange t) * 100)))
  /\ (valid <> [] -> ~ (0 < Dashboard.totalValue t)%Q ->
      written = Some (Dashboard.totalChange t, Js.Num 0))
  /\ Dashboard.updateStats [("A"%string, Some (Dashboard.snapshot 10 1));
                            ("B"%string, Some (Dashboard.snapshot 20 (-2)));
                            ("C"%string, None)]
     = {| Dashboard.totalStocks := 3;
          Dashboard.portfolioChange := Some ((-1)%Q, Js.Num (-100 # 31)) |}
  /\ Dashboard.portfolioChange
       (Dashboard.updateStats [("A"%string, Some (Dashboard.snapshot 10 1));
                               ("B"%string, Some (Dashboard.snapshot 20 (-2)))])
     = Some ((-1)%Q, Js.Num (-100 # 31)).
Proof.
  intros valid t written.
  pose proof (fold_visit_sums (map snd stockCards) Dashboard.no_totals) as Hs.
  cbv zeta in Hs. fold (Dashboard.totals_of stockCards) in Hs. fold t in Hs.
  rewrite filter_map_snd in Hs. fold valid in Hs.
  rewrite !length_map, !map_map in Hs. simpl in Hs.
  destruct Hs as (Hn & Hv & Hc).
  assert (Hw : written
               = if (0 <? Dashboard.validCards t)%nat then
                   Some (Dashboard.totalChange t,
                         if Js.gtb (Dashboard.totalValue t) 0
                         then Js.scale (Js.div (Dashboard.totalChange t)
                                (Dashboard.totalValue t - Dashboard.totalChange t)) 100
                         else Js.Num 0)
                 else None) by reflexivity.
  split; [| split; [| split; [| split; [| split; [| split]]]]].
  - unfold written, valid, Dashboard.updateStats. simpl.
    rewrite <- (totals_of_valid stockCards). reflexivity.
  - split; [exact Hn | split].
    + rewrite Hv. ring.
    + rewrite Hc. ring.
  - intros He. rewrite Hw, Hn, He. reflexivity.
  - intros Hne Hpos Hden. rewrite Hw, Hn.
    destruct valid as [|c valid']; [contradiction |]. simpl.
    unfold Js.gtb.
    destruct (Qle_bool (Dashboard.totalValue t) 0) eqn:E.
    + apply Qle_bool_iff in E. exfalso. apply (Qlt_not_le _ _ Hpos). exact E.
    + simpl. unfold Js.div.
      destruct (Qeq_bool (Dashboard.totalValue t - Dashboard.totalChange t) 0) eqn:E0.
      * apply Qeq_bool_iff in E0. contradiction.
      * reflexivity.
  - intros Hne Hnpos. rewrite Hw, Hn.
    destruct valid as [|c valid']; [contradiction |]. simpl.
    unfold Js.gtb.
    destruct (Qle_bool (Dashboard.totalValue t) 0) eqn:E; [reflexivity |].
    exfalso. apply Hnpos. apply Qnot_le_lt. intros Hle.
    apply Qle_bool_iff in Hle. congruence.
  - vm_compute. reflexivity.
  - vm_compute. reflexivity.
Qed.

(** A, B and C: two cards count, the value is 30, the change is -1 and the
    percentage is -100/31. *)
Lemma updateStats_counts_valid_cards_witness :
  Dashboard.portfolioChange
    (Dashboard.updateStats [("A"%string, Some (Dashboard.snapshot 10 1));
                            ("B"%string, Some (Dashboard.snapshot 20 (-2)));
                            ("C"%string, None)])
  = Some (Dashboard.totalChange
            (Dashboard.totals_of [("A"%string, Some (Dashboard.snapshot 10 1));
                                  ("B"%string, Some (Dashboard.snapshot 20 (-2)));
                                  ("C"%string, None)]),
          Js.Num (Dashboard.totalChange
                    (Dashboard.totals_of [("A"%string, Some (Dashboard.snapshot 10 1));
                                          ("B"%string, Some (Dashboard.snapshot 20 (-2)));
                                          ("C"%string, None)])
                  / (Dashboard.totalValue
                       (Dashboard.totals_of [("A"%string, Some (Dashboard.snapshot 10 1));
                                             ("B"%string, Some (Dashboard.snapshot 20 (-2)));
                                             ("C"%string, None)])
                     - Dashboard.totalChange
                         (Dashboard.totals_of [("A"%string, Some (Dashboard.snapshot 10 1));
                                               ("B"%string, Some (Dashboard.snapshot 20 (-2)));
                                               ("C"%string, None)])) * 100)).
Proof.
  refine (proj1 (proj2 (proj2 (proj2 (updateStats_counts_valid_cards _)))) _ _ _).
  - discriminate.
  - reflexivity.
  - intros H. vm_compute in H. discriminate H.
Defined.

(** ** Market status *)

(** Over the three readings it takes, the status follows the precedence
    holiday, then weekend, then the windows of the day.  When the date
    string is in the holiday list the text is the holiday text whatever
    the time; otherwise, when the day is not a trading day, it is the
    weekend text whatever the time; otherwise it is open inside market
    hours, extended hours inside the pre-market or after-hours window (with
    the matching flag set), and closed at any other time. *)
Lemma getMarketStatus_precedence (m : Config.market) (day : Z)
    (timeString dateString : string) :
  let st := Market.getMarketStatus m day timeString dateString in
  let s := Market.spec_sessionAt m day timeString dateString in
  Market.statusText st = Market.text_of s
  /\ Market.status st = Market.status_of s
  /\ (Market.includes (Config.HOLIDAYS m) dateString = true ->
      Market.statusText st = "Market Holiday"%string)
  /\ (Market.includes (Config.HOLIDAYS m) dateString = false ->
      Market.includesZ (Config.TRADING_DAYS m) day = false ->
      Market.statusText st = "Market Closed - Weekend"%string)
  /\ (Market.isOpen st = true <-> s = Market.OPEN)
  /\ (Market.isOpen st = false /\ Market.isExtendedHours st = true
      <-> s = Market.PRE_MARKET \/ s = Market.AFTER_HOURS)
  /\ (s = Market.PRE_MARKET -> Market.isPreMarket st = true)
  /\ (s = Market.AFTER_HOURS -> Market.isAfterHours st = true).
Proof.
  unfold Market.getMarketStatus, Market.spec_sessionAt, Market.within.
  cbn [Market.statusText Market.status Market.isOpen Market.isExtendedHours
       Market.isPreMarket Market.isAfterHours].
  destruct (Market.includes (Config.HOLIDAYS m) dateString);
  destruct (Market.includesZ (Config.TRADING_DAYS m) day);
  destruct (String.leb (Config.HOURS_OPEN m) timeString);
  destruct (String.ltb timeString (Config.HOURS_CLOSE m));
  destruct (String.leb (Config.PRE_MARKET_START (Config.EXTENDED_HOURS m)) timeString);
  destruct (String.ltb timeString (Config.PRE_MARKET_END (Config.EXTENDED_HOURS m)));
  destruct (String.leb (Config.AFTER_HOURS_START (Config.EXTENDED_HOURS m)) timeString);
  destruct (String.ltb timeString (Config.AFTER_HOURS_END (Config.EXTENDED_HOURS m)));
  cbn; repeat split; intros; try reflexivity; try discriminate;
  try (left; reflexivity); try (right; reflexivity);
  try match goal with H : _ \/ _ |- _ => destruct H; discriminate end;
  try match goal with H : _ /\ _ |- _ => destruct H; discriminate end.
Qed.

(** New Year's Day 2025, a Wednesday, at 10:00: a holiday although the
    time is inside market hours; the Saturday after, at 10:00: weekend. *)
Lemma getMarketStatus_new_year :
  Market.statusText
    (Market.getMarketStatus (Config.MARKET Config.CONFIG) 3 "10:00" "2025-01-01")
  = "Market Holiday"%string
  /\ Market.statusText
       (Market.getMarketStatus (Config.MARKET Config.CONFIG) 6 "10:00" "2025-01-04")
     = "Market Closed - Weekend"%string.
Proof.
  split.
  - apply (proj1 (proj2 (proj2 (getMarketStatus_precedence
             (Config.MARKET Config.CONFIG) 3 "10:00" "2025-01-01")))).
    reflexivity.
  - apply (proj1 (proj2 (proj2 (proj2 (getMarketStatus_precedence
             (Config.MARKET Config.CONFIG) 6 "10:00" "2025-01-04"))))).
    + reflexivity.
    + reflexivity.
Qed.

(** In a browser where the ISO date of [marketTime] is the date of the
    market's wall clock, the text is that of the specification's session. *)
Lemma getMarketStatusAt_same_date (m : Config.market) (timezoneOffset : Z)
    (w : Clock.wallclock) :
  Clock.toISOString_slice timezoneOffset w = Clock.date_of w ->
  Market.statusText (Clock.getMarketStatusAt m timezoneOffset w)
  = Market.text_of (Clock.spec_sessionAt m w).
Proof.
  intros Hd. unfold Clock.getMarketStatusAt, Clock.spec_sessionAt. rewrite Hd.
  apply getMarketStatus_precedence.
Qed.

(** C7: on Martin Luther King Jr. Day 2025 (Monday 20 January, in the
    holiday list) at 19:30 on the market's wall clock, the session of the
    specification is the holiday; in a browser in New York (UTC 300
    minutes ahead) the ISO date of [marketTime] is 2025-01-21, the holiday
    is missed and the text is that of extended hours; in a browser on UTC
    the text is the holiday text. *)
Theorem holiday_evening_is_extended_hours :
  let w := {| Clock.year := 2025; Clock.month := 1; Clock.day := 20;
              Clock.hours := 19; Clock.minutes := 30 |} in
  let m := Config.MARKET Config.CONFIG in
  Market.includes (Config.HOLIDAYS m) (Clock.date_of w) = true
  /\ Clock.spec_sessionAt m w = Market.HOLIDAY
  /\ Clock.toISOString_slice 300 w = "2025-01-21"%string
  /\ Market.isHoliday (Clock.getMarketStatusAt m 300 w) = false
  /\ Market.statusText (Clock.getMarketStatusAt m 300 w) = "Extended Hours"%string
  /\ Market.statusText (Clock.getMarketStatusAt m 0 w) = "Market Holiday"%string.
Proof. repeat split; vm_compute; reflexivity. Qed.

(** ** Loading and auto-refresh of a card *)

Lemma loadData_consistent (c : Card.card) :
  Card.consistent c -> Card.consistent (fst (Card.loadData c)).
Proof.
  intros [[Hl Ho]|[Hl Ho]]; unfold Card.loadData; rewrite Hl; simpl.
  - left. split; assumption.
  - left. split; [reflexivity | rewrite Ho; reflexivity].
Qed.

Lemma setError_keeps (b : bool) (m : string) (c : Card.card) :
  Card.isLoading (Card.setError b m c) = Card.isLoading c
  /\ Card.outstanding (Card.setError b m c) = Card.outstanding c
  /\ Card.refreshTimer (Card.setError b m c) = Card.refreshTimer c.
Proof. destruct b; repeat split; reflexivity. Qed.

Lemma loadData_resume_idle (r : Card.fetch_result) (c : Card.card) :
  Card.outstanding c = 1%nat ->
  Card.isLoading (Card.loadData_resume r c) = false
  /\ Card.outstanding (Card.loadData_resume r c) = 0%nat
  /\ Card.refreshTimer (Card.loadData_resume r c) = Card.refreshTimer c.
Proof.
  intros Ho. unfold Card.loadData_resume.
  destruct r as [m|s t|m|[|] d e]; simpl; rewrite ?Ho; repeat split; reflexivity.
Qed.

Lemma step_consistent (c : Card.card) (e : Card.event) :
  Card.consistent c -> Card.consistent (fst (Card.step c e)).
Proof.
  intros Hc. destruct e as [| |hidden|r]; simpl.
  - apply loadData_consistent, Hc.
  - apply loadData_consistent.
    destruct (setError_keeps false "" c) as (Hl & Ho & _).
    unfold Card.consistent. rewrite Hl, Ho. exact Hc.
  - destruct (Card.refreshTimer c); [| exact Hc]. unfold Card.tick.
    destruct (negb hidden && negb (Card.isLoading c));
      [apply loadData_consistent |]; exact Hc.
  - destruct Hc as [[Hl Ho]|[Hl Ho]]; rewrite Ho; simpl.
    + right. destruct (loadData_resume_idle r c Ho) as (H1 & H2 & _). split; assumption.
    + right. split; assumption.
Qed.

Lemma create_consistent (sym : string) (o : Card.options) :
  Card.consistent (fst (Card.create sym o)).
Proof. left. destruct o as [[|] i]; split; reflexivity. Qed.

Lemma run_consistent (events : list (Z * Card.event)) (c : Card.card) :
  Card.consistent c -> Card.consistent (fst (Card.run c events)).
Proof.
  revert c. induction events as [|[at_ e] rest IH]; intros c Hc; [exact Hc |].
  simpl. pose proof (step_consistent c e Hc) as Hs.
  destruct (Card.step c e) as [c1 n]. specialize (IH c1 Hs).
  destruct (Card.run c1 rest) as [c2 log]. exact IH.
Qed.

Lemma step_timer (c : Card.card) (e : Card.event) :
  Card.refreshTimer (fst (Card.step c e)) = Card.refreshTimer c.
Proof.
  destruct e as [| |hidden|r]; simpl.
  - unfold Card.refresh, Card.loadData. destruct (Card.isLoading c); reflexivity.
  - unfold Card.retry, Card.loadData. destruct (Card.isLoading _); reflexivity.
  - destruct (Card.refreshTimer c) eqn:E; [| simpl; exact E]. unfold Card.tick.
    destruct (negb hidden && negb (Card.isLoading c)); [| simpl; exact E].
    unfold Card.loadData. destruct (Card.isLoading c); simpl; exact E.
  - destruct (0 <? Card.outstanding c)%nat; [| reflexivity]. simpl.
    unfold Card.loadData_resume.
    destruct r as [m|s t|m|[|] d err]; reflexivity.
Qed.

Lemma run_timer (events : list (Z * Card.event)) (c : Card.card) :
  Card.refreshTimer (fst (Card.run c events)) = Card.refreshTimer c.
Proof.
  revert c. induction events as [|[at_ e] rest IH]; intros c; [reflexivity |].
  simpl. pose proof (step_timer c e) as Hs.
  destruct (Card.step c e) as [c1 n]. specialize (IH c1).
  destruct (Card.run c1 rest) as [c2 log]. simpl in *. congruence.
Qed.

(** C8: at every point of every run of a card at most one fetch is
    outstanding, and one is outstanding exactly while the card is loading;
    while a load is pending a manual refresh and an auto-refresh tick
    leave the card as it is and issue no fetch; an event issues at most
    one fetch, and only when none is outstanding. *)
Theorem one_fetch_outstanding (sym : string) (o : Card.options)
    (events : list (Z * Card.event)) :
  let c := fst (Card.run (fst (Card.create sym o)) events) in
  (Card.outstanding c <= 1)%nat
  /\ (Card.isLoading c = true <-> Card.outstanding c = 1%nat)
  /\ (Card.isLoading c = true ->
      Card.step c Card.Refresh = (c, 0%nat)
      /\ forall hidden, Card.step c (Card.Tick hidden) = (c, 0%nat))
  /\ (forall e, (snd (Card.step c e) <= 1)%nat
                /\ (snd (Card.step c e) = 1%nat -> Card.outstanding c = 0%nat)).
Proof.
  intros c.
  assert (Hc : Card.consistent c)
    by (apply run_consistent, create_consistent).
  split; [| split; [| split]].
  - destruct Hc as [[_ Ho]|[_ Ho]]; rewrite Ho; lia.
  - destruct Hc as [[Hl Ho]|[Hl Ho]]; rewrite Hl, Ho; split; intros; congruence.
  - intros Hl. split.
    + simpl. unfold Card.refresh, Card.loadData. rewrite Hl. reflexivity.
    + intros hidden. simpl. destruct (Card.refreshTimer c); [| reflexivity].
      unfold Card.tick. rewrite Hl, andb_false_r. reflexivity.
  - intros e. destruct e as [| |hidden|r]; simpl.
    + unfold Card.refresh, Card.loadData.
      destruct Hc as [[Hl Ho]|[Hl Ho]]; rewrite Hl; simpl; split; intros; lia.
    + unfold Card.retry, Card.loadData.
      destruct (setError_keeps false "" c) as (Hl' & _). rewrite Hl'.
      destruct Hc as [[Hl Ho]|[Hl Ho]]; rewrite Hl; simpl; split; intros; lia.
    + destruct (Card.refreshTimer c); [| simpl; split; intros; lia].
      unfold Card.tick, Card.loadData.
      destruct Hc as [[Hl Ho]|[Hl Ho]]; rewrite Hl; destruct hidden; simpl;
        split; intros; lia.
    + destruct (0 <? Card.outstanding c)%nat; simpl; split; intros; lia.
Qed.

(** A card that has just been created is loading: a refresh and a tick
    with the document visible change nothing and fetch nothing. *)
Lemma one_fetch_outstanding_witness :
  let c := fst (Card.create "AAPL" {| Card.autoRefresh := true;
                                      Card.refreshInterval := 30000 |}) in
  Card.step c Card.Refresh = (c, 0%nat)
  /\ Card.step c (Card.Tick false) = (c, 0%nat).
Proof.
  intros c.
  destruct (proj1 (proj2 (proj2 (one_fetch_outstanding "AAPL"
              {| Card.autoRefresh := true; Card.refreshInterval := 30000 |} [])))
              eq_refl) as [Hr Ht].
  split; [exact Hr | exact (Ht false)].
Defined.

(** C9: the card does not pause after MAX_RETRIES = 3 failures in a row,
    although AUTO_PAUSE_ON_ERROR is true.  The first load and the loads of
    the ticks at 30000 and 60000 all fail, the third failure being seen at
    60100; the tick at 90000, which is 100 ms short of AUTO_RESUME_DELAY
    after it, issues a fetch, and the card is loading again.  So the
    auto-pause, which the comments of [CONFIG.POLLING] announce as well,
    does not hold of the refresh loop. *)
Lemma tick_fetches_after_three_failures :
  let o := {| Card.autoRefresh := true; Card.refreshInterval := 30000 |} in
  let failure := Card.Completes (Card.NotOk 500 "Internal Server Error") in
  let events := [(100, failure); (30000, Card.Tick false); (30100, failure);
                 (60000, Card.Tick false); (60100, failure)] in
  let c := fst (Card.run (fst (Card.create "AAPL" o)) events) in
  Card.failures_in_a_row events = 3%nat
  /\ 60100 <= 90000 < 60100 + Config.AUTO_RESUME_DELAY (Config.POLLING Config.CONFIG)
  /\ snd (Card.step c (Card.Tick false)) = 1%nat
  /\ Card.isLoading (fst (Card.step c (Card.Tick false))) = true
  /\ ~ Card.spec_auto_pause Config.CONFIG.
Proof.
  intros o failure events c.
  assert (H3 : Card.failures_in_a_row events = 3%nat) by reflexivity.
  assert (Ht : snd (Card.step c (Card.Tick false)) = 1%nat) by reflexivity.
  split; [exact H3 |]. split; [simpl; lia |]. split; [exact Ht |].
  split; [reflexivity |].
  intros Hspec.
  specialize (Hspec eq_refl "AAPL"%string o
                [(100, failure); (30000, Card.Tick false); (30100, failure);
                 (60000, Card.Tick false)]
                60100 (Card.NotOk 500 "Internal Server Error") 90000 (Card.Tick false)).
  change ([(100, failure); (30000, Card.Tick false); (30100, failure);
           (60000, Card.Tick false)] ++ [(60100, Card.Completes (Card.NotOk 500 "Internal Server Error"))])
    with events in Hspec.
  fold c in Hspec. rewrite H3, Ht in Hspec.
  assert (Hf : 1%nat = 0%nat); [| discriminate Hf].
  apply Hspec; simpl; lia.
Qed.

(** The same at every failure: whenever a pending load fails, however
    many failures came before, the card is left not loading with its error
    shown, nothing is outstanding, and a manual refresh, or the next tick
    of an auto-refreshing card with the document visible, issues a fetch
    at once.  The card has no paused state and counts no failures. *)
Theorem failed_load_does_not_pause (sym : string) (o : Card.options)
    (events : list (Z * Card.event)) (r : Card.fetch_result) :
  let before := fst (Card.run (fst (Card.create sym o)) events) in
  let c := fst (Card.step before (Card.Completes r)) in
  Card.isLoading before = true ->
  Card.failed r = true ->
  Card.isLoading c = false
  /\ Card.hasError c = true
  /\ Card.outstanding c = 0%nat
  /\ snd (Card.step c Card.Refresh) = 1%nat
  /\ (Card.autoRefresh o = true -> snd (Card.step c (Card.Tick false)) = 1%nat).
Proof.
  intros before c Hl Hf.
  assert (Hc : Card.consistent before)
    by (apply run_consistent, create_consistent).
  destruct Hc as [[_ Ho]|[Hl' _]]; [| congruence].
  assert (Hc1 : c = Card.loadData_resume r before).
  { unfold c. simpl. rewrite Ho. reflexivity. }
  destruct (loadData_resume_idle r before Ho) as (Hi & Hz & Htm).
  rewrite <- Hc1 in Hi, Hz, Htm.
  assert (He : Card.hasError c = true).
  { rewrite Hc1. unfold Card.loadData_resume, Card.failed in *.
    destruct (Card.thrown r) as [m|]; [| discriminate]. reflexivity. }
  split; [exact Hi |]. split; [exact He |]. split; [exact Hz |]. split.
  - simpl. unfold Card.refresh, Card.loadData. rewrite Hi. reflexivity.
  - intros Ha. simpl.
    assert (Hta : Card.refreshTimer c = true).
    { rewrite Htm. unfold before. rewrite run_timer.
      unfold Card.create. simpl. rewrite Ha. reflexivity. }
    rewrite Hta. unfold Card.tick, Card.loadData. rewrite Hi. reflexivity.
Qed.

(** The third failure in a row of an auto-refreshing card is followed by
    a tick that fetches. *)
Lemma failed_load_does_not_pause_witness :
  let o := {| Card.autoRefresh := true; Card.refreshInterval := 30000 |} in
  let failure := Card.Completes (Card.NotOk 500 "Internal Server Error") in
  let before := fst (Card.run (fst (Card.create "AAPL" o))
                       [(100, failure); (30000, Card.Tick false); (30100, failure);
                        (60000, Card.Tick false)]) in
  snd (Card.step (fst (Card.step before failure)) (Card.Tick false)) = 1%nat.
Proof.
  intros o failure before.
  refine (proj2 (proj2 (proj2 (proj2 (failed_load_does_not_pause "AAPL" o
            [(100, failure); (30000, Card.Tick false); (30100, failure);
             (60000, Card.Tick false)]
            (Card.NotOk 500 "Internal Server Error") _ _)))) _);
    reflexivity.
Defined.

(** ** Request retries of any length *)

Lemma fold_failures (cfg : Config.config) (o : Request.options)
    (fs : list Request.callback) (a : nat) (s : list Z) :
  Forall Request.failure fs ->
  (a + length fs < Request.maxAttempts cfg o)%nat ->
  fold_left (Request.step cfg o) (Retry.failures fs)
    {| Request.attempts := S a; Request.timers := []; Request.sent := s;
       Request.settled := None |}
  = {| Request.attempts := S a + length fs; Request.timers := [];
       Request.sent := s ++ Retry.waits (Request.delay cfg o) (S a) (length fs);
       Request.settled := None |}.
Proof.
  revert a s. induction fs as [|f fs IH]; intros a s Hf Hlt.
  - simpl. rewrite Nat.add_0_r, app_nil_r. reflexivity.
  - inversion Hf as [|? ? Hf1 Hfs]; subst.
    cbn [Retry.failures flat_map app fold_left Request.step].
    rewrite handle_failure by (try exact Hf1; simpl in *; lia).
    cbn [Request.timers Request.attempts Request.sent Request.settled
         Request.attemptRequest app].
    change (flat_map (fun f0 => [Request.Calls f0; Request.TimerFires]) fs)
      with (Retry.failures fs).
    unfold Request.attemptRequest.
    cbn [Request.timers Request.attempts Request.sent Request.settled].
    rewrite (IH (S a)) by (try exact Hfs; simpl in *; lia).
    simpl length. unfold Retry.waits. cbn [seq map].
    rewrite <- app_assoc. cbn [app].
    f_equal; lia.
Qed.

(** X1: when each failed attempt is reported by one callback and fewer
    attempts fail than [maxAttempts] allows, the request resolves with the
    answer of the next attempt; the attempts made are the failures plus
    one, and the n-th retry waited n times the retry delay. *)
Theorem makeRequest_linear_backoff (cfg : Config.config) (o : Request.options)
    (fs : list Request.callback) (status : Z) :
  Forall Request.failure fs ->
  (length fs < Request.maxAttempts cfg o)%nat ->
  200 <= status < 300 ->
  Request.makeRequest cfg o
    (Retry.failures fs ++ [Request.Calls (Request.onreadystatechange 4 status)])
  = {| Request.attempts := S (length fs);
       Request.timers := [];
       Request.sent := Retry.waits (Request.delay cfg o) 0 (S (length fs));
       Request.settled := Some (Request.Resolved status) |}.
Proof.
  intros Hf Hlt Hs. unfold Request.makeRequest, Request.attemptRequest.
  cbn [Request.attempts Request.timers Request.sent Request.settled app].
  rewrite fold_left_app, (fold_failures cfg o fs 0 [0]) by (try exact Hf; simpl; lia).
  cbn [fold_left Request.step]. rewrite handle_success by exact Hs.
  unfold Retry.waits. cbn [seq map app Nat.add].
  rewrite Z.mul_0_r. reflexivity.
Qed.

(** Two server errors and a time-out in between, then an answer, with five
    attempts allowed. *)
Lemma makeRequest_linear_backoff_witness :
  Request.makeRequest Config.CONFIG
    {| Request.retries := Some 5%nat; Request.retryDelay := Some 100 |}
    (Retry.failures [Request.onreadystatechange 4 500; Request.ontimeout;
                     Request.onreadystatechange 4 503]
     ++ [Request.Calls (Request.onreadystatechange 4 204)])
  = {| Request.attempts := 4; Request.timers := [];
       Request.sent := [0; 100; 200; 300];
       Request.settled := Some (Request.Resolved 204) |}.
Proof.
  apply (makeRequest_linear_backoff Config.CONFIG
           {| Request.retries := Some 5%nat; Request.retryDelay := Some 100 |}
           [Request.onreadystatechange 4 500; Request.ontimeout;
            Request.onreadystatechange 4 503] 204).
  - constructor; [simpl; split; [reflexivity | right; lia] |].
    constructor; [exact I |].
    constructor; [simpl; split; [reflexivity | right; lia] |].
    constructor.
  - unfold Request.maxAttempts. simpl. lia.
  - lia.
Defined.

Lemma handle_exhausted (cfg : Config.config) (o : Request.options)
    (f : Request.callback) (st : Request.state) :
  Request.failure f ->
  (Request.maxAttempts cfg o <= Request.attempts st)%nat ->
  Request.handle cfg o f st = Request.settle (Retry.reason f) st.
Proof.
  intros Hf Hge.
  assert (Hb : (Request.attempts st <? Request.maxAttempts cfg o)%nat = false)
    by (apply Nat.ltb_ge; exact Hge).
  destruct f as [readyState status| |]; unfold Request.handle, Request.retry_or;
    rewrite ?Hb; try reflexivity.
  destruct Hf as [-> Hs]. change (4 =? 4) with true. cbv iota.
  replace ((status >=? 200) && (status <? 300)) with false; [reflexivity |].
  symmetry. apply andb_false_iff. rewrite Z.geb_leb, Z.leb_gt, Z.ltb_ge. lia.
Qed.

(** X2: when each failed attempt is reported by one callback and as many
    attempts fail as [maxAttempts] allows, the request is rejected with the
    reason of the last failure, after exactly [maxAttempts] attempts, and
    no retry is left pending. *)
Theorem makeRequest_gives_up (cfg : Config.config) (o : Request.options)
    (fs : list Request.callback) (f : Request.callback) :
  Forall Request.failure fs ->
  Request.failure f ->
  S (length fs) = Request.maxAttempts cfg o ->
  Request.makeRequest cfg o (Retry.failures fs ++ [Request.Calls f])
  = {| Request.attempts := Request.maxAttempts cfg o;
       Request.timers := [];
       Request.sent := Retry.waits (Request.delay cfg o) 0 (Request.maxAttempts cfg o);
       Request.settled := Some (Retry.reason f) |}.
Proof.
  intros Hfs Hf Hn. unfold Request.makeRequest, Request.attemptRequest.
  cbn [Request.attempts Request.timers Request.sent Request.settled app].
  rewrite fold_left_app, (fold_failures cfg o fs 0 [0]) by (try exact Hfs; simpl; lia).
  cbn [fold_left Request.step].
  rewrite handle_exhausted by (try exact Hf; simpl; lia).
  rewrite <- Hn. unfold Request.settle, Retry.waits.
  cbn [Request.settled Request.attempts Request.timers Request.sent seq map app Nat.add].
  rewrite Z.mul_0_r. reflexivity.
Qed.

(** Three server errors with the shipped three attempts. *)
Lemma makeRequest_gives_up_witness :
  Request.makeRequest Config.CONFIG Request.no_options
    (Retry.failures [Request.onreadystatechange 4 500; Request.onreadystatechange 4 502]
     ++ [Request.Calls (Request.onreadystatechange 4 503)])
  = {| Request.attempts := 3; Request.timers := [];
       Request.sent := [0; 2000; 4000];
       Request.settled := Some (Request.RejectedHttp 503) |}.
Proof.
  apply (makeRequest_gives_up Config.CONFIG Request.no_options
           [Request.onreadystatechange 4 500; Request.onreadystatechange 4 502]
           (Request.onreadystatechange 4 503)).
  - constructor; [simpl; split; [reflexivity | right; lia] |].
    constructor; [simpl; split; [reflexivity | right; lia] |].
    constructor.
  - simpl. split; [reflexivity | right; lia].
  - reflexivity.
Defined.

(** X3: an error report, sent by [reportError] with [retries: 1], is never
    retried: whatever the browser calls and in whatever order, one attempt
    is made and no retry timer is ever armed. *)
Theorem reportError_never_retries (cfg : Config.config)
    (events : list Request.event) :
  let st := Request.makeRequest cfg Retry.reportError_options events in
  Request.attempts st = 1%nat /\ Request.timers st = [] /\ Request.sent st = [0].
Proof.
  unfold Request.makeRequest.
  set (inv := fun st : Request.state =>
                Request.attempts st = 1%nat /\ Request.timers st = []
                /\ Request.sent st = [0]).
  assert (Hstep : forall st e, inv st -> inv (Request.step cfg Retry.reportError_options st e)).
  { intros st e (Ha & Ht & Hs). destruct e as [cb|]; simpl.
    - assert (Hset : forall r, inv (Request.settle r st)).
      { intros r. unfold Request.settle.
        destruct (Request.settled st); repeat split; assumption. }
      assert (Hret : forall r, inv (Request.retry_or cfg Retry.reportError_options r st)).
      { intros r. unfold Request.retry_or. rewrite Ha. simpl. apply Hset. }
      destruct cb as [readyState status| |]; simpl; try apply Hret.
      destruct (readyState =? 4); [| repeat split; assumption].
      destruct ((status >=? 200) && (status <? 300)); [apply Hset | apply Hret].
    - rewrite Ht. repeat split; assumption. }
  assert (Hfold : forall st, inv st ->
            inv (fold_left (Request.step cfg Retry.reportError_options) events st)).
  { induction events as [|e es IH]; intros st Hi; [exact Hi |].
    simpl. apply IH, Hstep, Hi. }
  apply Hfold. repeat split; reflexivity.
Qed.

(** ** The rate limiter *)

Lemma recent_all (now timeWindow : Z) (l : list Z) :
  Forall (fun r => now - timeWindow < r) l -> RateLimiter.recent now timeWindow l = l.
Proof.
  induction 1 as [|r l Hr _ IH]; [reflexivity |].
  unfold RateLimiter.recent in *. simpl.
  destruct (Z.ltb_spec (now - timeWindow) r); [| lia]. rewrite IH. reflexivity.
Qed.

Lemma expire_sorted (now timeWindow : Z) (l : list Z) :
  StronglySorted Z.le l ->
  RateLimiter.expire now timeWindow l = RateLimiter.recent now timeWindow l.
Proof.
  induction 1 as [|r l Hs IH Hall]; [reflexivity |].
  unfold RateLimiter.recent in *. simpl.
  destruct (Z.leb_spec r (now - timeWindow)) as [Hle|Hgt];
    destruct (Z.ltb_spec (now - timeWindow) r); try lia.
  - exact IH.
  - f_equal. symmetry. apply recent_all.
    eapply List.Forall_impl; [| exact Hall]. simpl. intros a Ha. lia.
Qed.

Lemma recent_recent (prev now timeWindow : Z) (l : list Z) :
  prev <= now ->
  RateLimiter.recent now timeWindow (RateLimiter.recent prev timeWindow l)
  = RateLimiter.recent now timeWindow l.
Proof.
  intros Hle. unfold RateLimiter.recent.
  induction l as [|r l IH]; [reflexivity |]. simpl.
  destruct (Z.ltb_spec (prev - timeWindow) r); simpl;
    destruct (Z.ltb_spec (now - timeWindow) r); try lia; rewrite IH; reflexivity.
Qed.

Lemma recent_sorted (now timeWindow : Z) (l : list Z) :
  StronglySorted Z.le l -> StronglySorted Z.le (RateLimiter.recent now timeWindow l).
Proof.
  induction 1 as [|r l Hs IH Hall]; [constructor |].
  unfold RateLimiter.recent in *. simpl.
  destruct (now - timeWindow <? r); [| exact IH].
  constructor; [exact IH |].
  apply List.Forall_forall. intros x Hx. apply List.filter_In in Hx.
  destruct Hx as [Hx _]. rewrite List.Forall_forall in Hall. apply Hall, Hx.
Qed.

Lemma recent_app (now timeWindow : Z) (l1 l2 : list Z) :
  RateLimiter.recent now timeWindow (l1 ++ l2)
  = RateLimiter.recent now timeWindow l1 ++ RateLimiter.recent now timeWindow l2.
Proof. unfold RateLimiter.recent. apply List.filter_app. Qed.

Lemma sorted_snoc (l : list Z) (x : Z) :
  StronglySorted Z.le l -> Forall (fun r => r <= x) l -> StronglySorted Z.le (l ++ [x]).
Proof.
  induction 1 as [|r l Hs IH Hall]; intros Hx; simpl.
  - repeat constructor.
  - inversion Hx as [|? ? Hr Hl]; subst. constructor; [apply IH, Hl |].
    apply Forall_app. split; [exact Hall | constructor; [exact Hr | constructor]].
Qed.

Lemma last_cons_default (l : list Z) (x d : Z) :
  List.last (x :: l) d = List.last l x.
Proof.
  revert x d. induction l as [|y l IH]; intros x d; [reflexivity |].
  change (List.last (x :: y :: l) d) with (List.last (y :: l) d).
  rewrite (IH y d), (IH y x). reflexivity.
Qed.

(** The array after a run of calls with a clock that does not go back:
    the allowed calls that are still inside the window of the last call. *)
Lemma calls_window (maxRequests timeWindow : Z) (times : list Z)
    (history : list Z) (prev : Z) :
  0 < timeWindow ->
  StronglySorted Z.le history ->
  Forall (fun r => r <= prev) history ->
  StronglySorted Z.le (prev :: times) ->
  let out := RateLimiter.calls maxRequests timeWindow
               (RateLimiter.recent prev timeWindow history) times in
  let all := history ++ RateLimiter.allowed times (fst out) in
  snd out = RateLimiter.recent (List.last times prev) timeWindow all
  /\ StronglySorted Z.le all
  /\ Forall (fun r => r <= List.last times prev) all
  /\ length (fst out) = length times.
Proof.
  intros HW. revert history prev.
  induction times as [|now rest IH]; intros history prev Hh Hp Hs; simpl.
  - rewrite app_nil_r. repeat split; assumption.
  - inversion Hs as [|? ? Hs' Hall]; subst.
    inversion Hall as [|? ? Hpn Hall']; subst.
    unfold RateLimiter.isAllowed.
    rewrite expire_sorted by (apply recent_sorted, Hh).
    rewrite recent_recent by exact Hpn.
    assert (Hp' : Forall (fun r => r <= now) history).
    { eapply List.Forall_impl; [| exact Hp]. simpl. intros a Ha. lia. }
    assert (Hlast : List.last (now :: rest) prev = List.last rest now)
      by apply last_cons_default.
    destruct (Z.of_nat (length (RateLimiter.recent now timeWindow history)) <? maxRequests).
    + assert (Hrec : RateLimiter.recent now timeWindow history ++ [now]
                     = RateLimiter.recent now timeWindow (history ++ [now])).
      { rewrite recent_app. f_equal. unfold RateLimiter.recent. simpl.
        destruct (Z.ltb_spec (now - timeWindow) now); [reflexivity | lia]. }
      rewrite Hrec.
      specialize (IH (history ++ [now]) now (sorted_snoc _ _ Hh Hp')).
      assert (Hp2 : Forall (fun r => r <= now) (history ++ [now])).
      { apply Forall_app. split; [exact Hp' | constructor; [lia | constructor]]. }
      specialize (IH Hp2 Hs'). cbv zeta in IH.
      destruct (RateLimiter.calls maxRequests timeWindow
                  (RateLimiter.recent now timeWindow (history ++ [now])) rest)
        as [answers requests2].
      cbn [fst snd] in *. cbn [RateLimiter.allowed].
      rewrite <- app_assoc in IH. cbn [app] in IH.
      change (match rest with [] => now | _ :: _ => List.last rest prev end)
        with (List.last (now :: rest) prev).
      rewrite Hlast. destruct IH as (H1 & H2 & H3 & H4).
      repeat split; try assumption. simpl. rewrite H4. reflexivity.
    + specialize (IH history now Hh Hp' Hs'). cbv zeta in IH.
      destruct (RateLimiter.calls maxRequests timeWindow
                  (RateLimiter.recent now timeWindow history) rest)
        as [answers requests2].
      cbn [fst snd] in *. cbn [RateLimiter.allowed].
      change (match rest with [] => now | _ :: _ => List.last rest prev end)
        with (List.last (now :: rest) prev).
      rewrite Hlast. destruct IH as (H1 & H2 & H3 & H4).
      repeat split; try assumption. simpl. rewrite H4. reflexivity.
Qed.

Lemma expire_length (now timeWindow : Z) (l : list Z) :
  (length (RateLimiter.expire now timeWindow l) <= length l)%nat.
Proof.
  induction l as [|r l IH]; simpl; [lia |].
  destruct (r <=? now - timeWindow); simpl; lia.
Qed.

Lemma isAllowed_bounded (maxRequests timeWindow now : Z) (requests : list Z) :
  Z.of_nat (length requests) <= maxRequests ->
  Z.of_nat (length (snd (RateLimiter.isAllowed maxRequests timeWindow now requests)))
  <= maxRequests.
Proof.
  intros Hb. unfold RateLimiter.isAllowed.
  pose proof (expire_length now timeWindow requests) as He.
  destruct (Z.ltb_spec (Z.of_nat (length (RateLimiter.expire now timeWindow requests)))
              maxRequests); simpl.
  - rewrite length_app. simpl. lia.
  - lia.
Qed.

Lemma calls_bounded (maxRequests timeWindow : Z) (times requests : list Z) :
  Z.of_nat (length requests) <= maxRequests ->
  Z.of_nat (length (snd (RateLimiter.calls maxRequests timeWindow requests times)))
  <= maxRequests.
Proof.
  revert requests. induction times as [|now rest IH]; intros requests Hb; [exact Hb |].
  simpl. pose proof (isAllowed_bounded maxRequests timeWindow now requests Hb) as H1.
  destruct (RateLimiter.isAllowed maxRequests timeWindow now requests) as [ok r1].
  specialize (IH r1 H1).
  destruct (RateLimiter.calls maxRequests timeWindow r1 rest) as [answers r2].
  exact IH.
Qed.

Lemma sorted_snoc_inv (l : list Z) (x : Z) :
  StronglySorted Z.le (l ++ [x]) ->
  StronglySorted Z.le l /\ Forall (fun r => r <= x) l.
Proof.
  induction l as [|r l IH]; simpl; intros Hs.
  - split; constructor.
  - inversion Hs as [|? ? Hs' Hall]; subst. destruct (IH Hs') as [H1 H2].
    apply Forall_app in Hall. destruct Hall as [Hl Hx].
    inversion Hx; subst. split; constructor; assumption.
Qed.

Lemma last_in (l : list Z) (x : Z) : In (List.last (x :: l) x) (x :: l).
Proof.
  revert x. induction l as [|y l IH]; intros x; [left; reflexivity |].
  right. rewrite (last_cons_default (y :: l) x x), (last_cons_default l y x),
    <- (last_cons_default l y y). apply IH.
Qed.

(** X4: with a clock that does not go back and a positive window, a call
    of the limiter is allowed exactly when fewer than [maxRequests] of the
    calls allowed before it lie less than [timeWindow] ms back; the array
    then holds the allowed calls of that window, this one included, and
    never more than [maxRequests] of them. *)
Theorem rate_limiter_counts_window (maxRequests timeWindow : Z)
    (earlier : list Z) (now : Z) :
  0 < timeWindow ->
  0 <= maxRequests ->
  StronglySorted Z.le (earlier ++ [now]) ->
  let out := RateLimiter.calls maxRequests timeWindow [] earlier in
  let before := RateLimiter.allowed earlier (fst out) in
  let answer := RateLimiter.isAllowed maxRequests timeWindow now (snd out) in
  (fst answer = true
   <-> Z.of_nat (length (RateLimiter.recent now timeWindow before)) < maxRequests)
  /\ snd answer
     = RateLimiter.recent now timeWindow
         (before ++ (if fst answer then [now] else []))
  /\ Z.of_nat (length (snd answer)) <= maxRequests.
Proof.
  intros HW Hmax Hs out before answer.
  destruct (sorted_snoc_inv _ _ Hs) as [Hse Hle].
  assert (Hbound : Z.of_nat (length (snd answer)) <= maxRequests).
  { apply isAllowed_bounded, calls_bounded. simpl. lia. }
  assert (Hstate : exists prev, prev <= now
            /\ snd out = RateLimiter.recent prev timeWindow before
            /\ StronglySorted Z.le before).
  { destruct earlier as [|x r].
    - exists now. repeat split; [lia | constructor].
    - assert (Hxs : StronglySorted Z.le (x :: x :: r)).
      { constructor; [exact Hse |]. inversion Hse; subst.
        constructor; [lia | assumption]. }
      pose proof (calls_window maxRequests timeWindow (x :: r) [] x HW
                    (SSorted_nil _) (List.Forall_nil _) Hxs) as Hc.
      cbv zeta in Hc. change (RateLimiter.recent x timeWindow []) with (@nil Z) in Hc.
      fold out in Hc. cbn [app] in Hc. fold before in Hc.
      destruct Hc as (H1 & H2 & _ & _).
      exists (List.last (x :: r) x). repeat split; try assumption.
      rewrite List.Forall_forall in Hle. apply Hle, last_in. }
  destruct Hstate as (prev & Hprev & Hout & Hsb).
  assert (Hkept : RateLimiter.expire now timeWindow (snd out)
                  = RateLimiter.recent now timeWindow before).
  { rewrite Hout, expire_sorted by (apply recent_sorted, Hsb).
    apply recent_recent, Hprev. }
  unfold answer in *. unfold RateLimiter.isAllowed in *. rewrite Hkept in *.
  destruct (Z.ltb_spec (Z.of_nat (length (RateLimiter.recent now timeWindow before)))
              maxRequests); cbn [fst snd] in *.
  - split; [split; intros; [assumption | reflexivity] |]. split; [| exact Hbound].
    rewrite recent_app. f_equal. unfold RateLimiter.recent. simpl.
    destruct (Z.ltb_spec (now - timeWindow) now); [reflexivity | lia].
  - split; [split; intros; [discriminate | lia] |]. split; [| exact Hbound].
    rewrite app_nil_r. reflexivity.
Qed.

(** Two requests per second: calls at 0, 100 and 200 ms leave the window
    full, and the call at 900 ms is refused. *)
Lemma rate_limiter_counts_window_witness :
  fst (RateLimiter.isAllowed 2 1000 900
         (snd (RateLimiter.calls 2 1000 [] [0; 100; 200]))) = false.
Proof.
  destruct (rate_limiter_counts_window 2 1000 [0; 100; 200] 900) as [[H1 _] _].
  - lia.
  - lia.
  - repeat constructor; lia.
  - destruct (fst (RateLimiter.isAllowed 2 1000 900
                     (snd (RateLimiter.calls 2 1000 [] [0; 100; 200])))) eqn:E;
      [| reflexivity].
    specialize (H1 eq_refl). vm_compute in H1. discriminate H1.
Defined.

(** X5: once every entry of the array is at least [timeWindow] ms old, a
    limiter with room for one request allows the call and forgets the
    earlier ones, whatever the array held. *)
Theorem rate_limiter_recovers (maxRequests timeWindow now : Z) (requests : list Z) :
  1 <= maxRequests ->
  Forall (fun r => r + timeWindow <= now) requests ->
  RateLimiter.isAllowed maxRequests timeWindow now requests = (true, [now]).
Proof.
  intros Hmax Hold.
  assert (He : RateLimiter.expire now timeWindow requests = []).
  { induction Hold as [|r l Hr _ IH]; [reflexivity |]. simpl.
    destruct (Z.leb_spec r (now - timeWindow)); [exact IH | lia]. }
  unfold RateLimiter.isAllowed. rewrite He. cbn [length app].
  change (Z.of_nat 0) with 0.
  destruct (Z.ltb_spec 0 maxRequests); [reflexivity | lia].
Qed.

(** A full window of 60 requests per minute is free again a minute after
    its last entry. *)
Lemma rate_limiter_recovers_witness :
  RateLimiter.isAllowed 60 60000 61000 [0; 500; 1000] = (true, [61000]).
Proof.
  apply rate_limiter_recovers; [lia |].
  repeat constructor; lia.
Defined.

(** ** Clearing localStorage and the error log *)

Lemma lookup_foldr_delete_keys {V} (keys : list string) (m : gmap string V) (k : string) :
  foldr delete m keys !! k = if bool_decide (k ∈ keys) then None else m !! k.
Proof.
  induction keys as [|x keys IH]; simpl.
  - reflexivity.
  - destruct (decide (x = k)) as [->|Hne].
    + rewrite lookup_delete_eq, bool_decide_eq_true_2; [reflexivity | left].
    + rewrite lookup_delete_ne by exact Hne. rewrite IH.
      destruct (decide (k ∈ keys)) as [Hin|Hnin].
      * rewrite !bool_decide_eq_true_2; [reflexivity | right; exact Hin | exact Hin].
      * rewrite !bool_decide_eq_false_2; [reflexivity | | exact Hnin].
        intros Hin. apply elem_of_cons in Hin. destruct Hin; congruence.
Qed.

(** X6: [clearLocalStorage(prefix)] with a non-empty prefix removes exactly
    the keys that start with the prefix and leaves every other entry as it
    was; with no prefix, or with the empty string, it empties the store.
    It reports success in both cases. *)
Theorem clearLocalStorage_prefix {V} (store : gmap string (Storage.stored V))
    (p k : string) :
  p <> ""%string ->
  StorageOps.clearLocalStorage (Some p) store
  = (true, snd (StorageOps.clearLocalStorage (Some p) store))
  /\ snd (StorageOps.clearLocalStorage (Some p) store) !! k
     = (if String.prefix p k then None else store !! k)
  /\ StorageOps.clearLocalStorage None store = (true, ∅)
  /\ StorageOps.clearLocalStorage (Some ""%string) store = (true, ∅).
Proof.
  intros Hp. unfold StorageOps.clearLocalStorage.
  destruct (String.eqb_spec p "") as [|_]; [contradiction |]. simpl.
  split; [reflexivity |]. split; [| split; reflexivity].
  rewrite lookup_foldr_delete_keys.
  destruct (String.prefix p k) eqn:Epre.
  - destruct (store !! k) as [v|] eqn:Ek.
    + rewrite bool_decide_eq_true_2; [reflexivity |].
      apply list_elem_of_In, List.filter_In. split.
      * apply List.in_map_iff. exists (k, v). split; [reflexivity |].
        apply list_elem_of_In, elem_of_map_to_list, Ek.
      * rewrite Epre, andb_true_r.
        destruct (String.eqb_spec k "") as [->|]; [| reflexivity].
        destruct p; [contradiction | discriminate].
    + destruct (bool_decide _); reflexivity.
  - rewrite bool_decide_eq_false_2; [reflexivity |].
    intros Hin. apply list_elem_of_In, List.filter_In in Hin.
    destruct Hin as [_ Hb]. rewrite Epre, andb_false_r in Hb. discriminate.
Qed.

(** Clearing the quotes leaves the preferences. *)
Lemma clearLocalStorage_prefix_witness :
  let store : gmap string (Storage.stored Js.quote) :=
    <["user-preferences"%string := Storage.Unusable]>
      {[ "stock-data-AAPL"%string :=
           Storage.Entry {| Storage.value := Js.quote_at 150 200;
                            Storage.timestamp := 1000;
                            Storage.expiry := None |} ]} in
  snd (StorageOps.clearLocalStorage (Some "stock-data-"%string) store)
    !! "stock-data-AAPL"%string = None
  /\ snd (StorageOps.clearLocalStorage (Some "stock-data-"%string) store)
       !! "user-preferences"%string = Some Storage.Unusable.
Proof.
  intros store. split.
  - refine (eq_trans (proj1 (proj2 (clearLocalStorage_prefix store "stock-data-"
                                      "stock-data-AAPL" _))) _);
      [discriminate | reflexivity].
  - refine (eq_trans (proj1 (proj2 (clearLocalStorage_prefix store "stock-data-"
                                      "user-preferences" _))) _);
      [discriminate | reflexivity].
Defined.

Lemma keep_last_100_drop {E} (l : list E) :
  StorageOps.keep_last_100 l = drop (length l - 100) l.
Proof.
  unfold StorageOps.keep_last_100.
  destruct (Nat.ltb_spec 100 (length l)) as [Hlt|Hge]; [reflexivity |].
  replace (length l - 100)%nat with 0%nat by lia. reflexivity.
Qed.

Lemma last_100_snoc {E} (l : list E) (e : E) :
  drop (length (drop (length l - 100) l ++ [e]) - 100) (drop (length l - 100) l ++ [e])
  = drop (length (l ++ [e]) - 100) (l ++ [e]).
Proof.
  rewrite !length_app, length_drop. simpl.
  destruct (Nat.le_gt_cases (length l) 100) as [Hle|Hgt].
  - replace (length l - 100)%nat with 0%nat by lia. rewrite drop_0.
    replace (length l - 0)%nat with (length l) by lia. reflexivity.
  - replace (length l - (length l - 100) + 1 - 100)%nat with 1%nat by lia.
    replace (length l + 1 - 100)%nat with (S (length l - 100)) by lia.
    rewrite !drop_app_le by (rewrite ?length_drop; lia).
    rewrite drop_drop. f_equal. f_equal. lia.
Qed.

Lemma tracked_log_holds {E} (store : gmap string (Storage.stored (list E)))
    (l : list E) (now : Z) :
  StorageOps.log_holds store l -> StorageOps.tracked now store = l.
Proof.
  unfold StorageOps.tracked, Storage.getLocalStorage.
  intros [[-> ->]|[t ->]]; reflexivity.
Qed.

Lemma trackError_log_holds {E} (store : gmap string (Storage.stored (list E)))
    (l : list E) (now : Z) (e : E) :
  StorageOps.log_holds store l ->
  StorageOps.log_holds (StorageOps.trackError Storage.roomy now e store)
    (StorageOps.keep_last_100 (l ++ [e])).
Proof.
  intros H. right. exists now.
  unfold StorageOps.trackError, Storage.getLocalStorage.
  destruct H as [[-> ->]|[t ->]]; simpl;
    unfold Storage.setLocalStorage, Storage.roomy; simpl;
    apply lookup_insert_eq.
Qed.

(** X7: errors tracked into a fresh log on a host that accepts the writes
    are all kept, in order, up to 100; beyond that only the last 100
    remain, so the log never holds more than 100 entries. *)
Theorem trackError_keeps_last_100 {E} (errors : list (Z * E))
    (store : gmap string (Storage.stored (list E))) (now : Z) :
  store !! StorageOps.error_tracking = None ->
  StorageOps.tracked now (StorageOps.trackErrors Storage.roomy errors store)
  = drop (length errors - 100) (map snd errors)
  /\ (length (StorageOps.tracked now
                (StorageOps.trackErrors Storage.roomy errors store)) <= 100)%nat.
Proof.
  intros Hfresh.
  assert (Hgen : forall (es : list (Z * E)) st (l : list E),
            StorageOps.log_holds st (drop (length l - 100) l) ->
            StorageOps.log_holds (StorageOps.trackErrors Storage.roomy es st)
              (drop (length (l ++ map snd es) - 100) (l ++ map snd es))).
  { induction es as [|[t e] es IH]; intros st l Hl; simpl.
    - rewrite app_nil_r. exact Hl.
    - replace (l ++ e :: map snd es) with ((l ++ [e]) ++ map snd es)
        by (rewrite <- app_assoc; reflexivity).
      apply IH. rewrite <- last_100_snoc, <- keep_last_100_drop.
      apply trackError_log_holds, Hl. }
  specialize (Hgen errors store [] (or_introl (conj Hfresh eq_refl))).
  simpl in Hgen. rewrite length_map in Hgen.
  rewrite (tracked_log_holds _ _ now Hgen).
  split; [reflexivity |]. rewrite length_drop, length_map. lia.
Qed.

(** Two errors tracked into an empty store are read back in order. *)
Lemma trackError_keeps_last_100_witness :
  StorageOps.tracked 3000
    (StorageOps.trackErrors Storage.roomy
       [(1000, "first"%string); (2000, "second"%string)] ∅)
  = ["first"%string; "second"%string].
Proof.
  apply (proj1 (trackError_keeps_last_100
                  [(1000, "first"%string); (2000, "second"%string)] ∅ 3000
                  (lookup_empty _))).
Defined.

(** X8: a read touches no key but its own, and is repeatable: a second
    read at the same instant returns the same value and changes nothing
    (the expired entry is already gone). *)
Theorem getLocalStorage_repeatable {V} (store : gmap string (Storage.stored V))
    (now : Z) (key : string) (defaultValue : V) :
  let first := Storage.getLocalStorage now key defaultValue store in
  (forall k, k <> key -> snd first !! k = store !! k)
  /\ Storage.getLocalStorage now key defaultValue (snd first)
     = (fst first, snd first).
Proof.
  unfold Storage.getLocalStorage.
  destruct (store !! key) as [[i|]|] eqn:Ek; cbn [fst snd].
  - destruct (Storage.expiry i) as [e|] eqn:Ee.
    + destruct (Js.truthyZ (Some e) && (now >? e)) eqn:Eb; cbn [fst snd].
      * split; [intros k Hk; apply lookup_delete_ne; congruence |].
        rewrite lookup_delete_eq. reflexivity.
      * split; [reflexivity |]. rewrite Ek, Ee, Eb. reflexivity.
    + cbn [fst snd]. split; [reflexivity |]. rewrite Ek, Ee. reflexivity.
  - split; [reflexivity |]. rewrite Ek. reflexivity.
  - split; [reflexivity |]. rewrite Ek. reflexivity.
Qed.

(** ** Validation *)

Lemma capital_plain (c : ascii) :
  Validation.is_capital c = true ->
  Validation.is_space c = false /\ Validation.upper c = c.
Proof.
  unfold Validation.is_capital, Validation.is_space, Validation.upper.
  generalize (nat_of_ascii c). intros n Hc.
  apply andb_true_iff in Hc. destruct Hc as [H1 H2].
  apply Nat.leb_le in H1, H2. split.
  - apply orb_false_iff. split.
    + apply andb_false_iff. right. apply Nat.leb_gt. lia.
    + apply Nat.eqb_neq. lia.
  - replace ((97 <=? n)%nat && (n <=? 122)%nat) with false; [reflexivity |].
    symmetry. apply andb_false_iff. left. apply Nat.leb_gt. lia.
Qed.

Lemma capitals_fixed (s : string) :
  Validation.capitals s = true ->
  Validation.trim s = s /\ Validation.toUpperCase s = s.
Proof.
  intros Hc.
  assert (Hend : Validation.trimEnd s = s /\ Validation.toUpperCase s = s).
  { induction s as [|c r IH]; [split; reflexivity |].
    simpl in Hc. apply andb_true_iff in Hc. destruct Hc as [Hc Hr].
    destruct (capital_plain c Hc) as [Hsp Hup]. destruct (IH Hr) as [IH1 IH2].
    simpl. rewrite IH1, IH2, Hup, Hsp. destruct r; split; reflexivity. }
  split; [| apply Hend]. unfold Validation.trim.
  destruct s as [|c r]; [reflexivity |].
  simpl in Hc. apply andb_true_iff in Hc. destruct Hc as [Hc Hr].
  destruct (capital_plain c Hc) as [Hsp _].
  cbn [Validation.trimStart]. rewrite Hsp. apply Hend.
Qed.

(** X9: a symbol that [validateStockSymbol] accepts is returned in a
    normal form: one to five capital letters, within the configured
    lengths; validating the returned symbol again accepts it and returns
    it unchanged. *)
Theorem validateStockSymbol_normal_form (config : Validation.stocks)
    (s t : string) :
  Validation.validateStockSymbol config (Some s) = Validation.valid t ->
  Validation.capitals t = true
  /\ (1 <= String.length t <= 5)%nat
  /\ Validation.SYMBOL_MIN_LENGTH config <= Z.of_nat (String.length t)
     <= Validation.SYMBOL_MAX_LENGTH config
  /\ Validation.validateStockSymbol config (Some t) = Validation.valid t.
Proof.
  unfold Validation.validateStockSymbol.
  destruct (String.eqb s ""); [discriminate |].
  set (u := Validation.toUpperCase (Validation.trim s)).
  destruct (Z.ltb_spec (Z.of_nat (String.length u)) (Validation.SYMBOL_MIN_LENGTH config))
    as [|Hmin]; [discriminate |].
  rewrite Z.gtb_ltb.
  destruct (Z.ltb_spec (Validation.SYMBOL_MAX_LENGTH config) (Z.of_nat (String.length u)))
    as [|Hmax]; [discriminate |].
  destruct (Validation.SYMBOL_PATTERN u) eqn:Hp; [| discriminate].
  simpl. intros [= <-].
  pose proof Hp as Hp'. unfold Validation.SYMBOL_PATTERN in Hp'.
  apply andb_true_iff in Hp'. destruct Hp' as [Hp' H5].
  apply andb_true_iff in Hp'. destruct Hp' as [Hcap H1].
  apply Nat.leb_le in H1, H5.
  destruct (capitals_fixed u Hcap) as [Htrim Hup].
  repeat split; try assumption.
  destruct (String.eqb_spec u "") as [He|_].
  - rewrite He in H1. simpl in H1. lia.
  - rewrite Htrim, Hup.
    destruct (Z.ltb_spec (Z.of_nat (String.length u)) (Validation.SYMBOL_MIN_LENGTH config));
      [lia |].
    rewrite Z.gtb_ltb.
    destruct (Z.ltb_spec (Validation.SYMBOL_MAX_LENGTH config) (Z.of_nat (String.length u)));
      [lia |].
    rewrite Hp. reflexivity.
Qed.

(** A symbol typed in lower case between spaces. *)
Lemma validateStockSymbol_normal_form_witness :
  Validation.validateStockSymbol Validation.STOCKS (Some "AAPL"%string)
  = Validation.valid "AAPL"%string.
Proof.
  apply (validateStockSymbol_normal_form Validation.STOCKS "  aapl "%string "AAPL"%string).
  reflexivity.
Defined.

Lemma in_range (p lo hi : Q) :
  Js.ltb p lo || Js.gtb p hi = false <-> (lo <= p /\ p <= hi)%Q.
Proof.
  unfold Js.ltb, Js.gtb. rewrite orb_false_iff, !negb_false_iff, !Qle_bool_iff.
  reflexivity.
Qed.

(** X10: [validatePriceAlert] accepts an alert exactly when its symbol,
    price and type are present, [validateStockSymbol] accepts the symbol,
    the price lies between the two configured thresholds and the type is
    above, below or change; an accepted alert is returned as it was
    given, its symbol not replaced by the normal form. *)
Theorem validatePriceAlert_accepts (config : Validation.stocks)
    (d d' : Validation.alertData) :
  Validation.validatePriceAlert config (Some d) = Validation.valid d'
  <-> d' = d
      /\ exists s t p ty,
           Validation.ad_symbol d = Some s
           /\ Validation.validateStockSymbol config (Some s) = Validation.valid t
           /\ Validation.ad_price d = Some p
           /\ (Validation.MIN_PRICE_THRESHOLD config <= p
               /\ p <= Validation.MAX_PRICE_THRESHOLD config)%Q
           /\ Validation.ad_type d = Some ty
           /\ (ty = "above" \/ ty = "below" \/ ty = "change")%string.
Proof.
  unfold Validation.validatePriceAlert.
  destruct (Validation.ad_symbol d) as [s|] eqn:Es;
    [| split; [discriminate | intros (_ & s & t & p & ty & H & _); discriminate]].
  destruct (Validation.ad_price d) as [p|] eqn:Ep;
    [| split; [discriminate | intros (_ & s0 & t & p & ty & _ & _ & H & _); discriminate]].
  destruct (Validation.ad_type d) as [ty|] eqn:Et;
    [| split; [discriminate
              | intros (_ & s0 & t & p0 & ty & _ & _ & _ & _ & H & _); discriminate]].
  cbn [Validation.missing app default from_option id].
  destruct (Validation.validateStockSymbol config (Some s)) as [t|e] eqn:Ev.
  - destruct (Js.ltb p (Validation.MIN_PRICE_THRESHOLD config)
              || Js.gtb p (Validation.MAX_PRICE_THRESHOLD config)) eqn:Er.
    + split; [discriminate |].
      intros (_ & s0 & t0 & p0 & ty0 & _ & _ & [= <-] & Hr & _).
      apply in_range in Hr. congruence.
    + apply in_range in Er.
      assert (Hty : Market.includes ["above"; "below"; "change"]%string ty = true
                    <-> (ty = "above" \/ ty = "below" \/ ty = "change")%string).
      { unfold Market.includes. cbn [existsb].
        rewrite !orb_true_iff, !String.eqb_eq. intuition discriminate. }
      destruct (Market.includes ["above"; "below"; "change"]%string ty) eqn:Ei; simpl.
      * split.
        -- intros [= <-]. split; [reflexivity |].
           exists s, t, p, ty.
           split; [reflexivity |]. split; [exact Ev |]. split; [reflexivity |].
           split; [exact Er |]. split; [reflexivity |]. apply Hty. reflexivity.
        -- intros [-> _]. reflexivity.
      * split; [discriminate |].
        intros (_ & s0 & t0 & p0 & ty0 & _ & _ & _ & _ & [= <-] & Hin).
        apply Hty in Hin. discriminate.
  - split; [discriminate |].
    intros (_ & s0 & t0 & p0 & ty0 & [= <-] & Hv & _). congruence.
Qed.

Lemma price_ok (x : Js.jsnum) (lo hi : Q) :
  Validation.isNaN x = false
  /\ Validation.below x lo || Validation.above x hi = false
  <-> exists p, x = Js.Num p /\ (lo <= p /\ p <= hi)%Q.
Proof.
  destruct x as [q|b|]; cbn [Validation.isNaN Validation.below Validation.above].
  - rewrite in_range. split.
    + intros [_ H]. exists q. split; [reflexivity | exact H].
    + intros (p & [= <-] & H). split; [reflexivity | exact H].
  - split.
    + intros [_ H]. destruct b; cbn in H; discriminate.
    + intros (p & H & _). discriminate.
  - split; [intros [H _] | intros (p & H & _)]; discriminate.
Qed.

Lemma volume_ok (v : Js.jsnum) (lo : Q) :
  Validation.isNaN v = false /\ Validation.below v lo = false
  <-> v = Js.Infinity true \/ exists q, v = Js.Num q /\ (lo <= q)%Q.
Proof.
  destruct v as [q|b|]; cbn [Validation.isNaN Validation.below].
  - unfold Js.ltb. rewrite negb_false_iff, Qle_bool_iff. split.
    + intros [_ H]. right. exists q. split; [reflexivity | exact H].
    + intros [H|(q' & [= <-] & H)]; [discriminate |]. split; [reflexivity | exact H].
  - destruct b; cbn [negb]; split.
    + intros _. left. reflexivity.
    + intros _. split; reflexivity.
    + intros [_ H]. discriminate.
    + intros [H|(q & H & _)]; discriminate.
  - split; [intros [H _] | intros [H|(q & H & _)]]; discriminate.
Qed.

Lemma percent_ok (x : Js.jsnum) (hi : Q) :
  Validation.isNaN x = false /\ Validation.above (Validation.abs x) hi = false
  <-> exists c, x = Js.Num c /\ (Qabs c <= hi)%Q.
Proof.
  destruct x as [q|b|]; cbn [Validation.isNaN Validation.abs Validation.above].
  - unfold Js.gtb. rewrite negb_false_iff, Qle_bool_iff. split.
    + intros [_ H]. exists q. split; [reflexivity | exact H].
    + intros (c & [= <-] & H). split; [reflexivity | exact H].
  - split; [intros [_ H] | intros (c & H & _)]; discriminate.
  - split; [intros [H _] | intros (c & H & _)]; discriminate.
Qed.

Lemma validateStockData_tests (config : Validation.stocks)
    (d d' : Validation.stockData) (s : string) (p c cp v : Js.jsnum) :
  Validation.sd_symbol d = Some s ->
  Validation.sd_price d = Some p ->
  Validation.sd_change d = Some c ->
  Validation.sd_changePercent d = Some cp ->
  Validation.sd_volume d = Some v ->
  Validation.validateStockData config (Some d) = Validation.valid d'
  <-> d' = d
      /\ (Validation.isNaN p = false
          /\ Validation.below p (Validation.PRICE_MIN config)
             || Validation.above p (Validation.PRICE_MAX config) = false)
      /\ Validation.isNaN c = false
      /\ (Validation.isNaN cp = false
          /\ Validation.above (Validation.abs cp)
               (Validation.CHANGE_PERCENT_MAX config) = false)
      /\ (Validation.isNaN v = false
          /\ Validation.below v (Validation.VOLUME_MIN config) = false).
Proof.
  intros Es Ep Ec Ecp Ev. unfold Validation.validateStockData.
  rewrite Es, Ep, Ec, Ecp, Ev.
  cbn [Validation.missing app default from_option id]. unfold Validation.not_a_number.
  destruct (Validation.isNaN p); cbn [app];
    [split; [discriminate | intros (_ & [H _] & _); discriminate] |].
  destruct (Validation.isNaN c); cbn [app];
    [split; [discriminate | intros (_ & _ & H & _); discriminate] |].
  destruct (Validation.isNaN cp); cbn [app];
    [split; [discriminate | intros (_ & _ & _ & [H _] & _); discriminate] |].
  destruct (Validation.isNaN v); cbn [app];
    [split; [discriminate | intros (_ & _ & _ & _ & [H _]); discriminate] |].
  destruct (Validation.below p (Validation.PRICE_MIN config)
            || Validation.above p (Validation.PRICE_MAX config));
    [split; [discriminate | intros (_ & [_ H] & _); discriminate] |].
  destruct (Validation.below v (Validation.VOLUME_MIN config));
    [split; [discriminate | intros (_ & _ & _ & _ & [_ H]); discriminate] |].
  destruct (Validation.above (Validation.abs cp) (Validation.CHANGE_PERCENT_MAX config));
    [split; [discriminate | intros (_ & _ & _ & [_ H] & _); discriminate] |].
  split.
  - intros [= <-]. repeat split; reflexivity.
  - intros [-> _]. reflexivity.
Qed.

(** X11: [validateStockData] accepts a quote exactly when its five fields
    are present, the price is a finite number between PRICE_MIN and
    PRICE_MAX, the change is a number (not NaN), the percentage change is a
    finite number of at most CHANGE_PERCENT_MAX in absolute value, and the
    volume is a number of at least VOLUME_MIN, which positive infinity is;
    an accepted quote is returned as it was given. *)
Theorem validateStockData_accepts (config : Validation.stocks)
    (d d' : Validation.stockData) :
  Validation.validateStockData config (Some d) = Validation.valid d'
  <-> d' = d
      /\ exists s p c cp v,
           Validation.sd_symbol d = Some s
           /\ Validation.sd_price d = Some (Js.Num p)
           /\ (Validation.PRICE_MIN config <= p /\ p <= Validation.PRICE_MAX config)%Q
           /\ Validation.sd_change d = Some c
           /\ c <> Js.NaN
           /\ Validation.sd_changePercent d = Some (Js.Num cp)
           /\ (Qabs cp <= Validation.CHANGE_PERCENT_MAX config)%Q
           /\ Validation.sd_volume d = Some v
           /\ (v = Js.Infinity true
               \/ exists q, v = Js.Num q /\ (Validation.VOLUME_MIN config <= q)%Q).
Proof.
  destruct (Validation.sd_symbol d) as [s|] eqn:Es;
    [| split; [unfold Validation.validateStockData; rewrite Es;
               cbn [Validation.missing app]; discriminate
              | intros (_ & s & p & c & cp & v & H & _); discriminate]].
  destruct (Validation.sd_price d) as [p|] eqn:Ep;
    [| split; [unfold Validation.validateStockData; rewrite Es, Ep;
               cbn [Validation.missing app]; discriminate
              | intros (_ & s0 & p & c & cp & v & _ & H & _); discriminate]].
  destruct (Validation.sd_change d) as [c|] eqn:Ec;
    [| split; [unfold Validation.validateStockData; rewrite Es, Ep, Ec;
               cbn [Validation.missing app]; discriminate
              | intros (_ & s0 & p0 & c & cp & v & _ & _ & _ & H & _); discriminate]].
  destruct (Validation.sd_changePercent d) as [cp|] eqn:Ecp;
    [| split; [unfold Validation.validateStockData; rewrite Es, Ep, Ec, Ecp;
               cbn [Validation.missing app]; discriminate
              | intros (_ & s0 & p0 & c0 & cp & v & _ & _ & _ & _ & _ & H & _);
                discriminate]].
  destruct (Validation.sd_volume d) as [v|] eqn:Ev;
    [| split; [unfold Validation.validateStockData; rewrite Es, Ep, Ec, Ecp, Ev;
               cbn [Validation.missing app]; discriminate
              | intros (_ & s0 & p0 & c0 & cp0 & v & _ & _ & _ & _ & _ & _ & _ & H & _);
                discriminate]].
  rewrite (validateStockData_tests config d d' s p c cp v Es Ep Ec Ecp Ev).
  rewrite price_ok, percent_ok, volume_ok.
  split.
  - intros (-> & (p0 & -> & Hp) & Hc & (cp0 & -> & Hcp) & Hv).
    split; [reflexivity |]. exists s, p0, c, cp0, v.
    split; [reflexivity |]. split; [reflexivity |]. split; [exact Hp |].
    split; [reflexivity |].
    split; [intros ->; discriminate |].
    split; [reflexivity |]. split; [exact Hcp |]. split; [reflexivity | exact Hv].
  - intros (-> & s0 & p0 & c0 & cp0 & v0 & _ & [= ->] & Hp & [= <-] & Hc
            & [= ->] & Hcp & [= <-] & Hv).
    split; [reflexivity |].
    split; [exists p0; split; [reflexivity | exact Hp] |].
    split; [destruct c; [reflexivity | reflexivity | congruence] |].
    split; [exists cp0; split; [reflexivity | exact Hcp] | exact Hv].
Qed.

(** ** The countdown to the next update *)

(** X12: for a known last update and a clock that reads a time from the
    epoch on, [getTimeUntilNextUpdate] reports expiry exactly when the
    interval has run out, provided the last update and the next one are
    times a [Date] can hold; before that, the seconds it reports are the
    remaining milliseconds rounded up to whole seconds, so at least one
    second is shown and the countdown never reads less than the time really
    left.  When the last update or the next one is beyond the range of
    [Date], it reports NaN seconds and no expiry. *)
Theorem getTimeUntilNextUpdate_rounds_up (now interval last : Z) :
  last <> 0 ->
  0 <= now <= Countdown.MAX_TIME ->
  let r := Countdown.getTimeUntilNextUpdate now interval (Some last) in
  (Z.abs last <= Countdown.MAX_TIME
   /\ Z.abs (last + interval) <= Countdown.MAX_TIME ->
   (Countdown.expired r = true <-> last + interval <= now)
   /\ (Countdown.expired r = true -> Countdown.seconds r = Some 0)
   /\ (Countdown.expired r = false ->
       exists s, Countdown.seconds r = Some s
                 /\ 1 <= s
                 /\ 1000 * (s - 1) < last + interval - now <= 1000 * s))
  /\ (~ (Z.abs last <= Countdown.MAX_TIME
         /\ Z.abs (last + interval) <= Countdown.MAX_TIME) ->
      Countdown.expired r = false /\ Countdown.seconds r = None).
Proof.
  intros Hl Hnow. unfold Countdown.getTimeUntilNextUpdate, Countdown.TimeClip.
  destruct (Z.eqb_spec last 0) as [|_]; [contradiction |].
  destruct (Z.leb_spec (Z.abs last) Countdown.MAX_TIME) as [Hlast|Hlast];
    cbn [mbind option_bind];
    [| split; [intros [H _]; lia | intros _; split; reflexivity]].
  destruct (Z.leb_spec (Z.abs (last + interval)) Countdown.MAX_TIME) as [Hnext|Hnext];
    [| split; [intros [_ H]; lia | intros _; split; reflexivity]].
  split; [intros _ | intros H; exfalso; apply H; split; assumption].
  destruct (Z.eqb_spec (Z.max 0 (last + interval - now)) 0) as [H0|Hpos]; simpl.
  - split; [split; intros; [lia | reflexivity] |].
    split; [reflexivity | discriminate].
  - split; [split; intros; [discriminate | lia] |].
    split; [discriminate |]. intros _.
    assert (Hr : Z.max 0 (last + interval - now) = last + interval - now) by lia.
    rewrite Hr. exists ((last + interval - now + 999) / 1000).
    split; [reflexivity |].
    pose proof (Z.div_mod (last + interval - now + 999) 1000 ltac:(lia)) as Hd.
    pose proof (Z.mod_pos_bound (last + interval - now + 999) 1000 ltac:(lia)) as Hm.
    lia.
Qed.

(** Updated at 1000 with an interval of 30 s: at 29500 the countdown
    shows 2 s for the 1500 ms left. *)
Lemma getTimeUntilNextUpdate_rounds_up_witness :
  Countdown.seconds (Countdown.getTimeUntilNextUpdate 29500 30000 (Some 1000)) = Some 2.
Proof.
  destruct (getTimeUntilNextUpdate_rounds_up 29500 30000 1000 ltac:(lia)
              ltac:(unfold Countdown.MAX_TIME; lia))
    as [H _].
  destruct (H ltac:(unfold Countdown.MAX_TIME; lia)) as (_ & _ & Hs).
  destruct (Hs eq_refl) as (s & -> & H1 & H2).
  f_equal. lia.
Defined.

(** ** Debounce and throttle *)

Lemma last_any_default {A} (l : list A) (x d : A) :
  List.last (x :: l) d = List.last l x.
Proof.
  revert x d. induction l as [|y l IH]; intros x d; [reflexivity |].
  change (List.last (x :: y :: l) d) with (List.last (y :: l) d).
  rewrite (IH y d), (IH y x). reflexivity.
Qed.

Lemma debounce_burst {A} (immediate : bool) (rest : list A) (pending : A) :
  Debounce.run immediate (Some pending) (map Debounce.Call rest ++ [Debounce.TimerFires])
  = (None, if negb immediate then [List.last rest pending] else []).
Proof.
  revert pending. induction rest as [|a rest IH]; intros pending.
  - simpl. destruct immediate; reflexivity.
  - cbn [map app Debounce.run Debounce.step]. rewrite andb_false_r.
    rewrite (IH a). rewrite (last_any_default rest a pending). reflexivity.
Qed.

(** X13: a burst of calls of a debounced function followed by the expiry
    of its timer applies the function exactly once: with the arguments of
    the last call when [immediate] is false, and with those of the first
    call, at once, when [immediate] is true. *)
Theorem debounce_applies_once {A} (first : A) (rest : list A) :
  Debounce.run false None
    (map Debounce.Call (first :: rest) ++ [Debounce.TimerFires])
  = (None, [List.last rest first])
  /\ Debounce.run true None
       (map Debounce.Call (first :: rest) ++ [Debounce.TimerFires])
     = (None, [first]).
Proof.
  split; cbn [map app Debounce.run Debounce.step andb];
    rewrite debounce_burst; reflexivity.
Qed.

Lemma throttle_spaced {A} (limit : Z) (events : list (Throttle.event A))
    (st : Throttle.state A) (t0 : Z) :
  Throttle.lastRan st = Some t0 -> t0 <> 0 ->
  Forall (fun e => Throttle.at_ e <> 0) events ->
  Throttle.spaced limit (t0 :: map fst (snd (Throttle.run limit st events))).
Proof.
  revert st t0. induction events as [|e rest IH]; intros st t0 Hl Ht Hev; [exact I |].
  inversion Hev as [|? ? He Hrest]; subst.
  cbn [Throttle.run].
  destruct e as [now args|now]; cbn [Throttle.step]; rewrite Hl; cbn [Js.truthyZ].
  - destruct (Z.eqb_spec t0 0) as [|_]; [contradiction |]. cbn [negb].
    specialize (IH {| Throttle.lastRan := Some t0; Throttle.lastFunc := Some args |}
                  t0 eq_refl Ht Hrest).
    destruct (Throttle.run limit _ rest) as [st2 later]. exact IH.
  - destruct (Throttle.lastFunc st) as [args|].
    + destruct (Z.geb_spec (now - t0) limit) as [Hge|Hlt].
      * specialize (IH {| Throttle.lastRan := Some now; Throttle.lastFunc := None |}
                      now eq_refl He Hrest).
        destruct (Throttle.run limit _ rest) as [st2 later].
        cbn [snd app map fst]. split; [lia | exact IH].
      * specialize (IH {| Throttle.lastRan := Some t0; Throttle.lastFunc := None |}
                      t0 eq_refl Ht Hrest).
        destruct (Throttle.run limit _ rest) as [st2 later]. exact IH.
    + specialize (IH st t0 Hl Ht Hrest).
      destruct (Throttle.run limit st rest) as [st2 later]. exact IH.
Qed.

Lemma throttle_spaced_unran {A} (limit : Z) (events : list (Throttle.event A))
    (st : Throttle.state A) :
  Throttle.lastRan st = None ->
  Forall (fun e => Throttle.at_ e <> 0) events ->
  Throttle.spaced limit (map fst (snd (Throttle.run limit st events))).
Proof.
  revert st. induction events as [|e rest IH]; intros st Hl Hev; [exact I |].
  inversion Hev as [|? ? He Hrest]; subst.
  cbn [Throttle.run].
  destruct e as [now args|now]; cbn [Throttle.step]; rewrite Hl; cbn [Js.truthyZ negb].
  - pose proof (throttle_spaced limit rest
                  {| Throttle.lastRan := Some now; Throttle.lastFunc := Throttle.lastFunc st |}
                  now eq_refl He Hrest) as H.
    destruct (Throttle.run limit _ rest) as [st2 later]. exact H.
  - destruct (Throttle.lastFunc st) as [args|].
    + specialize (IH {| Throttle.lastRan := None; Throttle.lastFunc := None |}
                    eq_refl Hrest).
      destruct (Throttle.run limit _ rest) as [st2 later]. exact IH.
    + specialize (IH st Hl Hrest).
      destruct (Throttle.run limit st rest) as [st2 later]. exact IH.
Qed.

(** X14: a throttled function never runs twice within [limit] ms: in
    every run of calls and timer expiries, at real clock readings, each
    application comes at least [limit] ms after the one before it; and the
    first call is applied at once. *)
Theorem throttle_keeps_limit {A} (limit : Z) (events : list (Throttle.event A)) :
  Forall (fun e => Throttle.at_ e <> 0) events ->
  Throttle.spaced limit (map fst (snd (Throttle.run limit Throttle.fresh events)))
  /\ (forall now args rest, events = Throttle.Call now args :: rest ->
      exists later, snd (Throttle.run limit Throttle.fresh events) = (now, args) :: later).
Proof.
  intros Hev. split.
  - apply throttle_spaced_unran; [reflexivity | exact Hev].
  - intros now args rest ->. cbn [Throttle.run Throttle.step Throttle.fresh
                                  Throttle.lastRan Js.truthyZ negb].
    destruct (Throttle.run limit _ rest) as [st2 later]. exists later. reflexivity.
Qed.

(** Calls at 1000, 1010 and 1020 ms with a limit of 100 ms: the first runs
    at once, the timer of the last one runs it at 1100. *)
Lemma throttle_keeps_limit_witness :
  Throttle.spaced 100
    (map fst (snd (Throttle.run 100 Throttle.fresh
                     [Throttle.Call 1000 "a"%string; Throttle.Call 1010 "b"%string;
                      Throttle.Call 1020 "c"%string; Throttle.TimerFires 1100]))).
Proof.
  apply (proj1 (throttle_keeps_limit 100
                  [Throttle.Call 1000 "a"%string; Throttle.Call 1010 "b"%string;
                   Throttle.Call 1020 "c"%string; Throttle.TimerFires 1100]
                  ltac:(repeat constructor; simpl; lia))).
Defined.

(** ** The price line of a card *)

Lemma first_truthy_falls_back (a b : option Q) (d : Q) :
  Js.truthy a = false -> Js.truthy b = false -> Js.first_truthy a b d = d.
Proof.
  unfold Js.truthy, Js.first_truthy.
  destruct a as [x|], b as [y|]; intros Ha Hb; try rewrite Ha; try rewrite Hb;
    reflexivity.
Qed.

(** X15: the card and the portfolio totals read a quote alike: for a quote
    that the totals count, the price and the change on the card are the
    amounts [updateStats] adds up.  A quote that carries no previous close
    is shown as unchanged: the close falls back on the price, so the change
    is zero, the percentage is zero and the card is styled positive. *)
Theorem updatePriceDisplay_agrees_with_totals (d : Js.quote) :
  (Dashboard.counted (Some d) = true ->
   PriceDisplay.priceValue (PriceDisplay.updatePriceDisplay d)
     = Dashboard.price_of (Some d)
   /\ PriceDisplay.changeValue (PriceDisplay.updatePriceDisplay d)
      = Dashboard.change_of (Some d))
  /\ (Js.truthy (Js.regularMarketPreviousClose d) = false ->
      Js.truthy (Js.previousClose d) = false ->
      (PriceDisplay.changeValue (PriceDisplay.updatePriceDisplay d) == 0)%Q
      /\ (exists q, PriceDisplay.changePercentage (PriceDisplay.updatePriceDisplay d)
                    = Js.Num q /\ (q == 0)%Q)
      /\ PriceDisplay.positive (PriceDisplay.updatePriceDisplay d) = true).
Proof.
  split.
  - destruct d as [rmp pr rmpc pc t].
    unfold Dashboard.counted, Dashboard.price_of, Dashboard.change_of,
      PriceDisplay.updatePriceDisplay.
    cbn [Js.regularMarketPrice Js.regularMarketPreviousClose Js.price Js.previousClose
         PriceDisplay.priceValue PriceDisplay.changeValue].
    destruct rmp as [p|]; [| discriminate].
    destruct rmpc as [c|]; [| rewrite andb_false_r; discriminate].
    cbn [Js.truthy Js.first_truthy]. intros H.
    apply andb_true_iff in H as [Hp Hc]. rewrite Hp, Hc.
    split; reflexivity.
  - intros Ha Hb. unfold PriceDisplay.updatePriceDisplay.
    cbn [PriceDisplay.changeValue PriceDisplay.changePercentage PriceDisplay.positive].
    set (price := Js.first_truthy (Js.regularMarketPrice d) (Js.price d) 0).
    rewrite (first_truthy_falls_back _ _ price Ha Hb).
    assert (H0 : (price - price == 0)%Q) by (unfold Qminus; apply Qplus_opp_r).
    split; [exact H0 |]. split.
    + unfold Js.div. destruct (Qeq_bool price 0); cbn [negb Js.scale].
      * exists 0%Q. split; reflexivity.
      * exists ((price - price) / price * 100)%Q. split; [reflexivity |].
        rewrite H0. unfold Qdiv. rewrite !Qmult_0_l. reflexivity.
    + unfold Js.geb. apply Qle_bool_iff. rewrite H0. apply Qle_refl.
Qed.

(** A quote of 10 that is up 1 counts for the totals, and the card shows
    the same 10 and 1. *)
Lemma updatePriceDisplay_agrees_with_totals_witness :
  PriceDisplay.priceValue (PriceDisplay.updatePriceDisplay (Dashboard.snapshot 10 1))
    = Dashboard.price_of (Some (Dashboard.snapshot 10 1))
  /\ PriceDisplay.changeValue (PriceDisplay.updatePriceDisplay (Dashboard.snapshot 10 1))
     = Dashboard.change_of (Some (Dashboard.snapshot 10 1)).
Proof.
  apply (proj1 (updatePriceDisplay_agrees_with_totals (Dashboard.snapshot 10 1))).
  reflexivity.
Defined.

(** ** What a failed load leaves alone *)

Lemma loadData_data (c : Card.card) :
  Card.data (fst (Card.loadData c)) = Card.data c
  /\ Card.previousData (fst (Card.loadData c)) = Card.previousData c.
Proof.
  unfold Card.loadData. destruct (Card.isLoading c); split; reflexivity.
Qed.

Lemma step_keeps_data (c : Card.card) (e : Card.event) :
  match e with Card.Completes r => Card.failed r = true | _ => True end ->
  Card.data (fst (Card.step c e)) = Card.data c
  /\ Card.previousData (fst (Card.step c e)) = Card.previousData c.
Proof.
  intros He. destruct e as [| |hidden|r]; cbn [Card.step].
  - apply loadData_data.
  - unfold Card.retry. destruct (loadData_data (Card.setError false "" c)) as [-> ->].
    split; reflexivity.
  - unfold Card.tick.
    destruct (Card.refreshTimer c); [| split; reflexivity].
    destruct (negb hidden && negb (Card.isLoading c)); [apply loadData_data | split; reflexivity].
  - destruct (0 <? Card.outstanding c)%nat; [| split; reflexivity].
    cbn [fst]. unfold Card.failed in He. unfold Card.loadData_resume.
    destruct (Card.thrown r) as [m|]; [| discriminate].
    split; reflexivity.
Qed.

(** X16: a load that fails never touches what the card shows: over any
    run of refreshes, retries, timer ticks and completions in which every
    completed fetch failed, [data] and [previousData] stay what they were.
    Only a successful completion replaces them, moving the former [data] to
    [previousData]. *)
Theorem failed_loads_keep_data (c : Card.card) (events : list (Z * Card.event)) :
  Forall (fun te => match snd te with
                    | Card.Completes r => Card.failed r = true
                    | _ => True
                    end) events ->
  (Card.data (fst (Card.run c events)) = Card.data c
   /\ Card.previousData (fst (Card.run c events)) = Card.previousData c)
  /\ (forall d e,
        Card.data (Card.loadData_resume (Card.Json true d e) (fst (Card.run c events))) = d
        /\ Card.previousData
             (Card.loadData_resume (Card.Json true d e) (fst (Card.run c events)))
           = Card.data c).
Proof.
  intros Hev.
  assert (Hrun : Card.data (fst (Card.run c events)) = Card.data c
                 /\ Card.previousData (fst (Card.run c events)) = Card.previousData c).
  { revert c. induction events as [|[at_ e] rest IH]; intros c; [split; reflexivity |].
    inversion Hev as [|? ? He Hrest]; subst. cbn [Card.run].
    destruct (step_keeps_data c e He) as [Hd Hp].
    destruct (Card.step c e) as [c1 n]. cbn [fst] in Hd, Hp.
    specialize (IH Hrest c1). destruct (Card.run c1 rest) as [c2 log].
    cbn [fst] in *. destruct IH as [-> ->]. split; assumption. }
  split; [exact Hrun |].
  intros d e. destruct Hrun as [Hd _]. rewrite <- Hd.
  split; reflexivity.
Qed.

(** A card that was given a quote sees two failed loads and keeps it. *)
Lemma failed_loads_keep_data_witness :
  let c := Card.loadData_resume (Card.Json true (Some (Dashboard.snapshot 10 1)) None)
             (fst (Card.create "AAPL" {| Card.autoRefresh := true;
                                         Card.refreshInterval := 30000 |})) in
  let events := [(30000, Card.Tick false); (30100, Card.Completes (Card.NotOk 500 "Oops"));
                 (31000, Card.Retry); (31100, Card.Completes (Card.FetchRejects "offline"))] in
  Card.data (fst (Card.run c events)) = Some (Dashboard.snapshot 10 1)
  /\ Card.previousData (fst (Card.run c events)) = None.
Proof.
  intros c events.
  apply (proj1 (failed_loads_keep_data c events
                  ltac:(repeat constructor))).
Defined.

(** ** The cards and the watchlist stay in step *)

Lemma map_fst_set (symbol : string) (card : Card.card) (m : list (string * Card.card)) :
  map fst (Board.set symbol card m) = Board.add symbol (map fst m).
Proof.
  unfold Board.add. induction m as [|[k v] rest IH]; [reflexivity |].
  cbn [Board.set map fst existsb].
  destruct (String.eqb k symbol) eqn:E; cbn [orb map fst]; [reflexivity |].
  rewrite IH. destruct (existsb _ (map fst rest)); reflexivity.
Qed.

Lemma NoDup_snoc {A} (l : list A) (x : A) :
  List.NoDup l -> ~ List.In x l -> List.NoDup (l ++ [x]).
Proof.
  induction 1 as [|y l Hy Hl IH]; intros Hx; cbn [app].
  - constructor; [intros [] | constructor].
  - constructor.
    + rewrite List.in_app_iff. intros [H|[H|[]]]; [exact (Hy H) |].
      apply Hx. left. symmetry. exact H.
    + apply IH. intros H. apply Hx. right. exact H.
Qed.

Lemma NoDup_add (symbol : string) (s : list string) :
  List.NoDup s -> List.NoDup (Board.add symbol s).
Proof.
  intros Hs. unfold Board.add.
  destruct (existsb (fun k => String.eqb k symbol) s) eqn:E; [exact Hs |].
  apply NoDup_snoc; [exact Hs |]. intros Hin.
  assert (existsb (fun k => String.eqb k symbol) s = true) as E'.
  { apply List.existsb_exists. exists symbol. split; [exact Hin | apply String.eqb_refl]. }
  congruence.
Qed.

Lemma length_set (symbol : string) (card : Card.card) (m : list (string * Card.card)) :
  (length (Board.set symbol card m) <= S (length m))%nat.
Proof.
  induction m as [|[k v] rest IH]; cbn [Board.set length]; [lia |].
  destruct (String.eqb k symbol); cbn [length]; lia.
Qed.

Lemma Forall_set (P : string * Card.card -> Prop) (symbol : string)
    (card : Card.card) (m : list (string * Card.card)) :
  P (symbol, card) -> List.Forall P m -> List.Forall P (Board.set symbol card m).
Proof.
  intros Hc. induction 1 as [|[k v] rest Hk Hrest IH]; cbn [Board.set].
  - constructor; [exact Hc | constructor].
  - destruct (String.eqb_spec k symbol) as [->|_].
    + constructor; [exact Hc | exact Hrest].
    + constructor; [exact Hk | exact IH].
Qed.

Lemma create_symbol (symbol : string) (o : Card.options) :
  Card.symbol (fst (Card.create symbol o)) = Validation.toUpperCase symbol.
Proof.
  unfold Card.create. cbn. destruct (Card.autoRefresh o); reflexivity.
Qed.

Lemma upper_idempotent (c : ascii) :
  Validation.upper (Validation.upper c) = Validation.upper c.
Proof.
  destruct c as [[] [] [] [] [] [] [] []]; reflexivity.
Qed.

Lemma toUpperCase_idempotent (s : string) :
  Validation.toUpperCase (Validation.toUpperCase s) = Validation.toUpperCase s.
Proof.
  induction s as [|c s IH]; [reflexivity |].
  cbn [Validation.toUpperCase]. rewrite upper_idempotent, IH. reflexivity.
Qed.

Lemma addStockCard_coherent (o : Board.options) (symbol : string) (d : Board.dashboard) :
  (length (Board.stockCards d) < Board.maxCards o)%nat ->
  Board.coherent o d -> Board.coherent o (Board.addStockCard o symbol d).
Proof.
  intros Hlt (Hk & Hn & _ & Hs). unfold Board.coherent, Board.addStockCard.
  cbn [Board.stockCards Board.watchlist].
  split; [rewrite map_fst_set, Hk; reflexivity |].
  split; [apply NoDup_add, Hn |].
  split; [pose proof (length_set symbol
            (fst (Card.create symbol {| Card.autoRefresh := true;
                                        Card.refreshInterval := Board.refreshInterval o |}))
            (Board.stockCards d)); lia |].
  apply Forall_set; [apply create_symbol | exact Hs].
Qed.

Lemma addStockCard_own (o : Board.options) (symbol : string) (d : Board.dashboard) :
  Validation.toUpperCase symbol = symbol ->
  Board.own_symbols d -> Board.own_symbols (Board.addStockCard o symbol d).
Proof.
  intros Hu Hd. unfold Board.own_symbols, Board.addStockCard.
  cbn [Board.stockCards]. apply Forall_set; [| exact Hd].
  cbn [fst snd]. rewrite create_symbol. exact Hu.
Qed.

Lemma map_fst_delete (symbol : string) (m : list (string * Card.card)) :
  map fst (Board.delete_card symbol m) = Board.delete_symbol symbol (map fst m).
Proof.
  unfold Board.delete_card, Board.delete_symbol.
  induction m as [|[k v] rest IH]; [reflexivity |].
  cbn [List.filter map fst]. destruct (negb (String.eqb k symbol)); cbn [map fst];
    rewrite IH; reflexivity.
Qed.

Lemma length_filter_le {A} (f : A -> bool) (l : list A) :
  (length (List.filter f l) <= length l)%nat.
Proof.
  induction l as [|x l IH]; cbn [List.filter length]; [lia |].
  destruct (f x); cbn [length]; lia.
Qed.

Lemma Forall_filter_keeps {A} (P : A -> Prop) (f : A -> bool) (l : list A) :
  List.Forall P l -> List.Forall P (List.filter f l).
Proof.
  induction 1 as [|x l Hx Hl IH]; cbn [List.filter]; [constructor |].
  destruct (f x); [constructor; assumption | assumption].
Qed.

Lemma step_coherent (o : Board.options) (d : Board.dashboard) (e : Board.event) :
  Board.coherent o d -> Board.coherent o (Board.step o d e).
Proof.
  intros Hd. destruct e as [input|symbol|symbol|confirmed]; cbn [Board.step].
  - unfold Board.handleAddStock.
    destruct (String.eqb _ ""); [exact Hd |].
    destruct (Board.has _ _); [exact Hd |].
    destruct (Nat.leb_spec (Board.maxCards o) (length (Board.stockCards d))); [exact Hd |].
    apply addStockCard_coherent; assumption.
  - unfold Board.addDefaultStock.
    destruct (Board.has _ _); cbn [negb andb]; [exact Hd |].
    destruct (Nat.ltb_spec (length (Board.stockCards d)) (Board.maxCards o)); [| exact Hd].
    apply addStockCard_coherent; assumption.
  - destruct Hd as (Hk & Hn & Hl & Hs).
    unfold Board.coherent, Board.handleCardRemoved.
    cbn [Board.stockCards Board.watchlist].
    split; [rewrite map_fst_delete, Hk; reflexivity |].
    split; [apply List.NoDup_filter, Hn |].
    split; [pose proof (length_filter_le
              (fun kv : string * Card.card => negb (String.eqb (fst kv) symbol))
              (Board.stockCards d)); unfold Board.delete_card; lia |].
    apply Forall_filter_keeps, Hs.
  - unfold Board.clearWatchlist.
    destruct (length (Board.stockCards d) =? 0)%nat; [exact Hd |].
    destruct confirmed; [| exact Hd].
    repeat split; cbn; [constructor | lia | constructor].
Qed.

Lemma step_own (o : Board.options) (d : Board.dashboard) (e : Board.event) :
  Board.normal e -> Board.own_symbols d -> Board.own_symbols (Board.step o d e).
Proof.
  intros He Hd. destruct e as [input|symbol|symbol|confirmed]; cbn [Board.step].
  - unfold Board.handleAddStock.
    destruct (String.eqb _ ""); [exact Hd |].
    destruct (Board.has _ _); [exact Hd |].
    destruct (_ <=? _)%nat; [exact Hd |].
    apply addStockCard_own; [apply toUpperCase_idempotent | exact Hd].
  - unfold Board.addDefaultStock.
    destruct (negb _ && _); [| exact Hd].
    apply addStockCard_own; [apply He | exact Hd].
  - unfold Board.own_symbols, Board.handleCardRemoved. cbn [Board.stockCards].
    apply Forall_filter_keeps, Hd.
  - unfold Board.clearWatchlist.
    destruct (length (Board.stockCards d) =? 0)%nat; [exact Hd |].
    destruct confirmed; [constructor | exact Hd].
Qed.

Lemma own_symbols_keys (d : Board.dashboard) :
  Board.own_symbols d ->
  map (fun kv => Card.symbol (snd kv)) (Board.stockCards d) = map fst (Board.stockCards d).
Proof.
  unfold Board.own_symbols. induction 1 as [|kv rest Hkv Hrest IH]; [reflexivity |].
  cbn [map]. rewrite Hkv, IH. reflexivity.
Qed.

(** X17: the dashboard's cards and its watchlist stay in step: after any
    run of additions from the search box, turns of the default-symbol loop,
    removals and clearings, the map of cards and the watchlist hold the
    same keys in the same order, no key twice, at most [maxCards] of them,
    and the symbol of every card is its key in capitals.  When the text of
    the events is ASCII and the default symbols are written in capitals, as
    the shipped ones are, every card is stored under its own symbol, and no
    two cards show the same symbol. *)
Theorem dashboard_stays_coherent (o : Board.options) (d : Board.dashboard)
    (events : list Board.event) :
  Board.coherent o d ->
  Board.coherent o (Board.run o d events)
  /\ (Board.own_symbols d ->
      Forall Board.normal events ->
      Board.own_symbols (Board.run o d events)
      /\ List.NoDup (map (fun kv => Card.symbol (snd kv))
                       (Board.stockCards (Board.run o d events)))).
Proof.
  intros Hd.
  assert (Hc : Board.coherent o (Board.run o d events)).
  { unfold Board.run. revert d Hd.
    induction events as [|e rest IH]; intros d Hd; [exact Hd |].
    cbn [fold_left]. apply IH, step_coherent, Hd. }
  split; [exact Hc |]. intros Ho Hev.
  assert (Hown : Board.own_symbols (Board.run o d events)).
  { unfold Board.run. clear Hc Hd. revert d Ho.
    induction Hev as [|e rest He Hrest IH]; intros d Ho; [exact Ho |].
    cbn [fold_left]. apply IH, step_own; assumption. }
  split; [exact Hown |].
  rewrite (own_symbols_keys _ Hown).
  destruct Hc as (Hk & Hn & _). rewrite Hk. exact Hn.
Qed.

Lemma dashboard_stays_coherent_witness :
  let o := {| Board.maxCards := 2; Board.refreshInterval := 30000 |} in
  let events := [Board.AddStock " aapl "; Board.AddStock "AAPL"; Board.DefaultStock "MSFT";
                 Board.AddStock "tsla"; Board.CardRemoved "AAPL";
                 Board.DefaultStock "GOOGL"] in
  (Board.coherent o (Board.run o Board.create events)
   /\ Board.own_symbols (Board.run o Board.create events)
   /\ List.NoDup (map (fun kv => Card.symbol (snd kv))
                    (Board.stockCards (Board.run o Board.create events))))
  /\ Board.watchlist (Board.run o Board.create events) = ["MSFT"; "GOOGL"]%string.
Proof.
  intros o events. split; [| reflexivity].
  assert (Hc : Board.coherent o Board.create).
  { unfold Board.coherent, Board.create. cbn [Board.stockCards Board.watchlist map length].
    split; [reflexivity |]. split; [constructor |]. split; [lia | constructor]. }
  assert (Ho : Board.own_symbols Board.create) by constructor.
  assert (Hev : Forall Board.normal events).
  { unfold events.
    constructor; [reflexivity |]. constructor; [reflexivity |].
    constructor; [split; reflexivity |]. constructor; [reflexivity |].
    constructor; [exact I |]. constructor; [split; reflexivity |]. constructor. }
  destruct (dashboard_stays_coherent o Board.create events Hc) as [H1 H2].
  split; [exact H1 | exact (H2 Ho Hev)].
Defined.

(** Why the default symbols have to be in capitals: a default symbol
    [aapl] is stored under the key [aapl] with a card that shows AAPL, so
    the search box adds a second card that shows AAPL. *)
Example lowercase_default_shares_symbol :
  let o := {| Board.maxCards := 20; Board.refreshInterval := 30000 |} in
  map (fun kv => (fst kv, Card.symbol (snd kv)))
    (Board.stockCards
       (Board.run o Board.create [Board.DefaultStock "aapl"; Board.AddStock "aapl"]))
  = [("aapl", "AAPL"); ("AAPL", "AAPL")]%string.
Proof. reflexivity. Qed.

(** ** Alerts fire once *)

Lemma feed_silent (symbol : string) (prices : list Q)
    (alerts : gmap string Alerts.alert) :
  match alerts !! symbol with
  | Some a => Alerts.triggered a = true
  | None => True
  end ->
  Alerts.feed symbol prices alerts = (alerts, map (fun _ => false) prices).
Proof.
  intros Ha. induction prices as [|p rest IH]; [reflexivity |].
  cbn [Alerts.feed map].
  assert (Alerts.checkAlerts symbol (Some (Alerts.priced p)) alerts = (alerts, None)) as ->.
  { unfold Alerts.checkAlerts. destruct (alerts !! symbol) as [a|]; [| reflexivity].
    rewrite Ha. reflexivity. }
  rewrite IH. reflexivity.
Qed.

Lemma count_silent {A} (l : list A) :
  List.count_occ bool_dec (map (fun _ => false) l) true = 0%nat.
Proof.
  induction l as [|x l IH]; [reflexivity |]. cbn [map List.count_occ].
  destruct (bool_dec false true); [discriminate | exact IH].
Qed.

(** X18: an alert is one-shot and private to its symbol: however many
    prices are evaluated, [checkAlerts] fires at most once, and the stored
    alerts of the other symbols are left as they were. *)
Theorem alert_fires_at_most_once (symbol : string) (prices : list Q)
    (alerts : gmap string Alerts.alert) :
  (List.count_occ bool_dec (snd (Alerts.feed symbol prices alerts)) true <= 1)%nat
  /\ (forall other, other <> symbol ->
      fst (Alerts.feed symbol prices alerts) !! other = alerts !! other).
Proof.
  revert alerts. induction prices as [|p rest IH]; intros alerts.
  - split; [cbn; lia | reflexivity].
  - cbn [Alerts.feed]. unfold Alerts.checkAlerts.
    destruct (alerts !! symbol) as [a|] eqn:Ha.
    + destruct (Alerts.triggered a) eqn:Ht; cbn [negb].
      * specialize (IH alerts). destruct (Alerts.feed symbol rest alerts) as [alerts2 flags].
        cbn [fst snd List.count_occ] in *. destruct (bool_dec false true); [discriminate |].
        exact IH.
      * destruct (Alerts.reached a _).
        -- rewrite feed_silent
             by (rewrite lookup_insert_eq; reflexivity).
           cbn [fst snd List.count_occ]. destruct (bool_dec true true); [| congruence].
           rewrite count_silent. split; [lia |].
           intros other Ho. apply lookup_insert_ne. congruence.
        -- specialize (IH alerts). destruct (Alerts.feed symbol rest alerts) as [alerts2 flags].
           cbn [fst snd List.count_occ] in *. destruct (bool_dec false true); [discriminate |].
           exact IH.
    + specialize (IH alerts). destruct (Alerts.feed symbol rest alerts) as [alerts2 flags].
      cbn [fst snd List.count_occ] in *. destruct (bool_dec false true); [discriminate |].
      exact IH.
Qed.

(** With alerts on AAPL and MSFT, four prices of AAPL fire once and leave
    the alert on MSFT alone. *)
Lemma alert_fires_at_most_once_witness :
  let alerts := Alerts.setAlert 1736899200000 "MSFT" 400
                  (Alerts.setAlert 1736899200000 "AAPL" 100 ∅) in
  fst (Alerts.feed "AAPL" [95; 98; 101; 105]%Q alerts) !! "MSFT" = alerts !! "MSFT".
Proof.
  intros alerts.
  apply (proj2 (alert_fires_at_most_once "AAPL" [95; 98; 101; 105]%Q alerts)).
  discriminate.
Defined.

Lemma active_listed (alerts : gmap string Alerts.alert) (symbol : string)
    (a : Alerts.alert) :
  List.In (symbol, a) (Board.activeAlerts alerts)
  <-> alerts !! symbol = Some a /\ Alerts.triggered a = false.
Proof.
  unfold Board.activeAlerts. rewrite List.filter_In, <- list_elem_of_In.
  rewrite elem_of_map_to_list. cbn [snd]. rewrite negb_true_iff. reflexivity.
Qed.

(** X19: the dashboard lists the alerts that can still fire: when
    [checkAlerts] of a card fires, the alert of its symbol is no longer
    among the active alerts, and [setAlert] puts the symbol (back) on the
    list with the new threshold. *)
Theorem fired_alert_leaves_the_list (symbol : string) (data : option Js.quote)
    (alerts : gmap string Alerts.alert) (now : Z) (p : Q) :
  (forall hit, snd (Alerts.checkAlerts symbol data alerts) = Some hit ->
     ~ List.In symbol
         (map fst (Board.activeAlerts (fst (Alerts.checkAlerts symbol data alerts)))))
  /\ List.In (symbol, {| Alerts.price := p; Alerts.created := now;
                         Alerts.triggered := false |})
       (Board.activeAlerts
          (Alerts.setAlert now symbol p (fst (Alerts.checkAlerts symbol data alerts)))).
Proof.
  split.
  - intros hit. unfold Alerts.checkAlerts.
    destruct (alerts !! symbol) as [a|]; [| discriminate].
    destruct data as [d|]; [| discriminate].
    destruct (negb (Alerts.triggered a)); [| discriminate].
    destruct (Alerts.reached a _); [| discriminate].
    cbn [fst snd]. intros _ Hin.
    apply List.in_map_iff in Hin as [[s a'] [Hs Hin]]. cbn [fst] in Hs. subst s.
    apply active_listed in Hin as [Hl Ht].
    rewrite lookup_insert_eq in Hl. injection Hl as <-. discriminate.
  - apply active_listed. split; [| reflexivity].
    unfold Alerts.setAlert. apply lookup_insert_eq.
Qed.

Lemma fired_alert_leaves_the_list_witness :
  let alerts := Alerts.setAlert 1736899200000 "AAPL" 100 ∅ in
  ~ List.In "AAPL"%string
      (map fst (Board.activeAlerts
                  (fst (Alerts.checkAlerts "AAPL" (Some (Alerts.priced 95)) alerts)))).
Proof.
  intros alerts.
  apply (proj1 (fired_alert_leaves_the_list "AAPL" (Some (Alerts.priced 95)) alerts 0 0)
           (100, 95)%Q).
  vm_compute. reflexivity.
Defined.

(** ** Initialising the configuration twice *)

Lemma applyEnvironmentConfig_idempotent (c : Config.config) :
  Config.applyEnvironmentConfig (Config.applyEnvironmentConfig c)
  = Config.applyEnvironmentConfig c.
Proof.
  unfold Config.applyEnvironmentConfig.
  destruct (Config.ENVIRONMENT_OVERRIDES (Config.APP_ENVIRONMENT c)) as [o|] eqn:E.
  - cbn [Config.mergeDeep Config.APP_ENVIRONMENT]. rewrite E.
    destruct o as [[?|] [?|] [?|] [?|]]; reflexivity.
  - rewrite E. reflexivity.
Qed.

(** X20: initialising the configuration is idempotent: a second
    [initializeConfig] on the configuration that the first one left behind
    returns the same verdict and changes nothing. *)
Theorem initializeConfig_idempotent (c : Config.config) :
  Config.initializeConfig (snd (Config.initializeConfig c)) = Config.initializeConfig c.
Proof.
  unfold Config.initializeConfig.
  destruct (Config.validateConfig (Config.applyEnvironmentConfig c)) eqn:E;
    cbn [snd]; rewrite applyEnvironmentConfig_idempotent, E; reflexivity.
Qed.

(** X21: which values are validated depends on the environment.  In
    "development" the configured DEFAULT_INTERVAL is replaced by 10000
    before validation, so the verdict is about 10000 and not about the
    configured value; in every other environment the overrides touch no
    validated value and the verdict is about the configuration as given. *)
Theorem initializeConfig_validates_after_override (c : Config.config) :
  (Config.APP_ENVIRONMENT c = "development"%string ->
   (fst (Config.initializeConfig c) = true
    <-> Config.MIN_INTERVAL (Config.POLLING c) < Config.MAX_INTERVAL (Config.POLLING c)
        /\ Config.MIN_INTERVAL (Config.POLLING c) <= 10000
             <= Config.MAX_INTERVAL (Config.POLLING c)
        /\ 0 < Config.MAX_SIZE (Config.CACHE c)
        /\ 0 <= Config.CURRENCY_DECIMALS (Config.FORMAT c) <= 10))
  /\ (Config.APP_ENVIRONMENT c <> "development"%string ->
      (fst (Config.initializeConfig c) = true <-> Config.well_configured c)).
Proof.
  assert (Hv : fst (Config.initializeConfig c) = true
               <-> Config.well_configured (Config.applyEnvironmentConfig c)).
  { unfold Config.initializeConfig.
    pose proof (validateConfig_returns (Config.applyEnvironmentConfig c)) as H.
    destruct (Config.validateConfig (Config.applyEnvironmentConfig c)) as [[]|errors];
      cbn [fst]; rewrite <- H; split; intros; congruence. }
  split; intros He; rewrite Hv; unfold Config.applyEnvironmentConfig,
    Config.ENVIRONMENT_OVERRIDES.
  - rewrite He. cbn. reflexivity.
  - destruct (String.eqb_spec (Config.APP_ENVIRONMENT c) "development"); [contradiction |].
    destruct (String.eqb (Config.APP_ENVIRONMENT c) "staging"); [reflexivity |].
    destruct (String.eqb (Config.APP_ENVIRONMENT c) "production"); reflexivity.
Qed.

(** The shipped configuration with MIN_INTERVAL raised to 15000 is valid
    in production and rejected in development. *)
Lemma initializeConfig_validates_after_override_witness :
  let raised (environment : string) :=
    {| Config.APP_ENVIRONMENT := environment;
       Config.API := Config.API Config.CONFIG;
       Config.POLLING :=
         {| Config.DEFAULT_INTERVAL := 30000; Config.MIN_INTERVAL := 15000;
            Config.MAX_INTERVAL := 3600000; Config.POLL_RETRY_DELAY := 5000;
            Config.MAX_RETRIES := 3; Config.EXPONENTIAL_BACKOFF := true;
            Config.BACKOFF_MULTIPLIER := 2; Config.AUTO_PAUSE_ON_ERROR := true;
            Config.AUTO_RESUME_DELAY := 30000 |};
       Config.CACHE := Config.CACHE Config.CONFIG;
       Config.FORMAT := Config.FORMAT Config.CONFIG;
       Config.MARKET := Config.MARKET Config.CONFIG;
       Config.DEBUG := Config.DEBUG Config.CONFIG |} in
  (fst (Config.initializeConfig (raised "production")) = true
   <-> Config.well_configured (raised "production"))
  /\ (fst (Config.initializeConfig (raised "development")) = true
      <-> 15000 < 3600000 /\ 15000 <= 10000 <= 3600000
          /\ 0 < 5242880 /\ 0 <= 2 <= 10).
Proof.
  intros raised. split.
  - apply (proj2 (initializeConfig_validates_after_override (raised "production"))).
    discriminate.
  - apply (proj1 (initializeConfig_validates_after_override (raised "development"))).
    reflexivity.
Defined.

(** ** Accepted records *)

(** An alert on [" aapl "] above 150 is accepted and returned with its
    symbol as typed. *)
Lemma validatePriceAlert_accepts_witness :
  let d := {| Validation.ad_symbol := Some " aapl "%string;
              Validation.ad_price := Some 150%Q;
              Validation.ad_type := Some "above"%string |} in
  Validation.validatePriceAlert Validation.STOCKS (Some d) = Validation.valid d.
Proof.
  intros d.
  apply (proj2 (validatePriceAlert_accepts Validation.STOCKS d d)).
  split; [reflexivity |].
  exists " aapl "%string, "AAPL"%string, 150%Q, "above"%string.
  split; [reflexivity |]. split; [reflexivity |]. split; [reflexivity |].
  split; [split; unfold Qle; simpl; lia |].
  split; [reflexivity |]. left. reflexivity.
Defined.

(** A quote of AAPL at 150, up 1.5 (1 %), volume 1000, is accepted. *)
Lemma validateStockData_accepts_witness :
  let d := {| Validation.sd_symbol := Some "AAPL"%string;
              Validation.sd_price := Some (Js.Num 150);
              Validation.sd_change := Some (Js.Num (3 # 2));
              Validation.sd_changePercent := Some (Js.Num 1);
              Validation.sd_volume := Some (Js.Num 1000) |} in
  Validation.validateStockData Validation.STOCKS (Some d) = Validation.valid d.
Proof.
  intros d.
  apply (proj2 (validateStockData_accepts Validation.STOCKS d d)).
  split; [reflexivity |].
  exists "AAPL"%string, 150%Q, (Js.Num (3 # 2)), 1%Q, (Js.Num 1000).
  split; [reflexivity |]. split; [reflexivity |].
  split; [split; unfold Qle; simpl; lia |].
  split; [reflexivity |]. split; [discriminate |].
  split; [reflexivity |]. split; [unfold Qle; simpl; lia |].
  split; [reflexivity |]. right. exists 1000%Q.
  split; [reflexivity | unfold Qle; simpl; lia].
Defined.
